(** * The CleanLearn what-if analysis of the running example

    A shallow embedding of [demo/feature_overview/clean_learn.py]: the two
    pandas transforms [drop_outliers] and [impute_outliers], the plan
    generation [CleanLearn.generate_plans_to_try] and the report
    construction [CleanLearn.generate_final_report], followed by the
    properties the specification states about them.

    Python values are modelled by [PyVal], raised exceptions by [result],
    the pandas frame by a record of an index and named columns, the shared
    [singleton] of the pipeline executor and the analysis object by records
    that are threaded through the stateful code. *)

From Stdlib Require Import Floats.
From stdpp Require Import gmap strings list fin_maps pretty.

Open Scope string_scope.
Open Scope list_scope.

(* Decimal literals denote the nearest binary64 value, as in Python. *)
Set Warnings "-inexact-float".

(** ** Python values, exceptions and the error monad *)

(** The scalar values that flow through the analysis: table cells, the
    imputation constant and the extracted results. *)
Inductive PyVal :=
| PyNone
| PyBool (b : bool)
| PyInt (z : Z)
| PyFloat (f : float)
| PyStr (s : string).

(** The exceptions the modelled code can raise. [Exception] is the plain
    Python [Exception] with its message. *)
Inductive PyException :=
| Exception (msg : string)
| KeyError (key : string)
| IndexError (msg : string)
| ValueError (msg : string)
| TypeError (msg : string)
| AssertionError (msg : string)
| AttributeError (msg : string).

Inductive result (A : Type) :=
| Ok (a : A)
| Raise (e : PyException).

Arguments Ok {A} a.
Arguments Raise {A} e.

#[global] Instance result_ret : MRet result := λ A a, Ok a.
#[global] Instance result_bind : MBind result := λ A B k m,
  match m with
  | Ok a => k a
  | Raise e => Raise e
  end.

Definition is_Ok {A} (r : result A) : bool :=
  match r with Ok _ => true | Raise _ => false end.

(** [float(z)]: the binary64 value nearest to [z], ties to even. *)
Definition float_of_int (z : Z) : float :=
  SF2Prim (binary_normalize prec emax z 0 false).

(** [int(f)] for a float with [f.is_integer()]. *)
Definition int_of_float (f : float) : option Z :=
  match Prim2SF f with
  | S754_zero _ => Some 0%Z
  | S754_finite negative m e =>
      let magnitude :=
        if (0 <=? e)%Z then Some (Z.pos m * 2 ^ e)%Z
        else if (Z.pos m mod 2 ^ (- e) =? 0)%Z then Some (Z.pos m / 2 ^ (- e))%Z
        else None in
      (λ z, if negative then (- z)%Z else z) <$> magnitude
  | _ => None
  end.

(** ** A model of the pandas operations the transforms use *)

(** Row labels of a pandas index. *)
Inductive Label :=
| LabelInt (z : Z)
| LabelStr (s : string).

#[global] Instance Label_eq_dec : EqDecision Label.
Proof. solve_decision. Defined.

Module pandas.

Record Series := mkSeries {
  s_index : list Label;
  s_values : list PyVal
}.

(** A frame: the row labels and the named columns, each column holding one
    cell per row. Labels may repeat, and so may column names, as in pandas.
    The columns of the model are those of the dtypes int64, float64, bool
    and object. A column is the list of its cells as Python reads them
    back; its dtype is the one these cells have in common, see
    [dtype_of]. *)
Record DataFrame := mkDataFrame {
  df_index : list Label;
  df_columns : list (string * list PyVal)
}.

(** Every column has one cell per row label. *)
Definition well_formed (df : DataFrame) : Prop :=
  Forall (λ c, length c.2 = length (df_index df)) (df_columns df).

(** Boolean indexing: keeps the positions whose mask entry is [true]. *)
Fixpoint select {A} (mask : list bool) (l : list A) : list A :=
  match mask, l with
  | b :: mask', x :: l' => if b then x :: select mask' l' else select mask' l'
  | _, _ => []
  end.

(** [df[mask]]: the rows of [df] at the positions kept by [mask]. *)
Definition take_rows (mask : list bool) (df : DataFrame) : DataFrame :=
  {| df_index := select mask (df_index df);
     df_columns := (λ c, (c.1, select mask c.2)) <$> df_columns df |}.

Fixpoint column_lookup (column : string) (cols : list (string * list PyVal))
  : option (list PyVal) :=
  match cols with
  | [] => None
  | (name, values) :: cols' =>
      if decide (name = column) then Some values else column_lookup column cols'
  end.

Definition column_names (df : DataFrame) : list string := fst <$> df_columns df.

(** [df.copy()]: the copy shares nothing with the original, which a value
    of the model does not either. *)
Definition copy (df : DataFrame) : DataFrame := df.

(** What [df[column]] is: a Series when one column carries the name, the
    frame of the columns that carry it when several do. *)
Inductive Selection :=
| OneColumn (s : Series)
| SeveralColumns (df : DataFrame).

(** [obj.index] *)
Definition selection_index (obj : Selection) : list Label :=
  match obj with
  | OneColumn s => s_index s
  | SeveralColumns df => df_index df
  end.

(** [df[column]] *)
Definition getitem (df : DataFrame) (column : string) : result Selection :=
  match filter (λ c, c.1 = column) (df_columns df) with
  | [] => Raise (KeyError column)
  | [(_, values)] => Ok (OneColumn {| s_index := df_index df; s_values := values |})
  | cols => Ok (SeveralColumns {| df_index := df_index df; df_columns := cols |})
  end.

(** What a callable handed to [.loc] answers with: a one-dimensional
    boolean mask (a list or an array of booleans, or a boolean Series over
    the index of the object it was called on), or a mask with one entry
    per cell of a frame, as a comparison of a frame gives. *)
Inductive Key :=
| Mask (mask : list bool)
| FrameMask.

(** The rows of a Series or of a frame at the positions kept by [mask]. *)
Definition selection_rows (mask : list bool) (obj : Selection) : Selection :=
  match obj with
  | OneColumn s =>
      OneColumn {| s_index := select mask (s_index s);
                   s_values := select mask (s_values s) |}
  | SeveralColumns df => SeveralColumns (take_rows mask df)
  end.

(** [obj.loc[key]] for a callable [key]: pandas calls [key] on the object
    and indexes with what it returns. A non-empty list of booleans must
    have one entry per row; an empty list is a list of no labels and
    selects no row; a two-dimensional mask is refused. *)
Definition loc_callable (obj : Selection) (key : Selection → result Key)
  : result Selection :=
  answer ← key obj;
  match answer with
  | FrameMask => Raise (ValueError "Cannot index with multidimensional key")
  | Mask mask =>
      if decide (mask = [] ∨ length mask = length (selection_index obj))
      then Ok (selection_rows mask obj)
      else Raise (IndexError ("Boolean index has wrong length: "
                              +:+ pretty (length mask) +:+ " instead of "
                              +:+ pretty (length (selection_index obj))))
  end.

Definition labels_found (labels index : list Label) : bool :=
  forallb (λ l, bool_decide (l ∈ index)) labels.

(** [df.drop(labels)]: removes every row whose label is in [labels]; a
    label that is not in the index raises a [KeyError], whose message
    lists the labels in pandas. *)
Definition drop (df : DataFrame) (labels : list Label) : result DataFrame :=
  if labels_found labels (df_index df)
  then Ok (take_rows ((λ l, bool_decide (l ∉ labels)) <$> df_index df) df)
  else Raise (KeyError "labels not found in axis").

(** *** Dtypes and assignment *)

Inductive Dtype := int64 | uint64 | float64 | bool_ | object_.

Definition is_int64 (v : PyVal) : bool :=
  match v with
  | PyInt z => bool_decide (- 2 ^ 63 ≤ z < 2 ^ 63)%Z
  | _ => false
  end.

Definition is_uint64 (v : PyVal) : bool :=
  match v with
  | PyInt z => bool_decide (0 ≤ z < 2 ^ 64)%Z
  | _ => false
  end.

Definition is_int (v : PyVal) : bool :=
  match v with PyInt _ => true | _ => false end.

Definition is_float (v : PyVal) : bool :=
  match v with PyFloat _ => true | _ => false end.

Definition is_bool (v : PyVal) : bool :=
  match v with PyBool _ => true | _ => false end.

Definition is_str (v : PyVal) : bool :=
  match v with PyStr _ => true | _ => false end.

Definition is_none (v : PyVal) : bool :=
  match v with PyNone => true | _ => false end.

(** The dtype of a column, read off its cells: a column of ints that fit
    64 bits is an int64 column, or a uint64 column if they only fit
    unsigned, a column of floats a float64 column, a column of booleans a
    bool column, and any other column holds Python objects. *)
Definition dtype_of (cells : list PyVal) : Dtype :=
  if forallb is_int64 cells then int64
  else if forallb is_uint64 cells then uint64
  else if forallb is_float cells then float64
  else if forallb is_bool cells then bool_
  else object_.

(** A cell of a numeric column once the column is float64: ints are
    converted and the missing value is NaN. *)
Definition to_float (v : PyVal) : PyVal :=
  match v with
  | PyInt z => PyFloat (float_of_int z)
  | PyNone => PyFloat nan
  | _ => v
  end.

(** Writes [value] at the positions marked by [hit]. *)
Fixpoint assign (hit : list bool) (value : PyVal) (values : list PyVal)
  : list PyVal :=
  match hit, values with
  | h :: hit', v :: values' => (if h then value else v) :: assign hit' value values'
  | _, _ => values
  end.

(** A value the dtype of the column holds is stored in it and leaves the
    other cells as they are. *)
Definition holds (cells : list PyVal) (value : PyVal) : bool :=
  match dtype_of cells, value with
  | object_, _ => true
  | int64, PyInt _ => is_int64 value
  | uint64, PyInt _ => is_uint64 value
  | float64, PyFloat _ => true
  | bool_, PyBool _ => true
  | _, _ => false
  end.

(** The cells of a column of ints after [value] was assigned at the
    positions marked by [hit]; [fits] tells the ints the dtype holds. An
    int that fits and a float that equals one are stored as that int. A
    missing value, any other float and an int of the other 64-bit dtype
    turn the column into a float64 column; what remains turns it into an
    object column that keeps its cells. *)
Definition setitem_integer (fits : PyVal → bool) (hit : list bool) (value : PyVal)
    (cells : list PyVal) : list PyVal :=
  let retyped := to_float <$> cells in
  match value with
  | PyInt z =>
      if fits value then assign hit value cells
      else if is_int64 value || is_uint64 value
      then assign hit (PyFloat (float_of_int z)) retyped
      else assign hit value cells
  | PyFloat f =>
      match int_of_float f with
      | Some z =>
          if fits (PyInt z) then assign hit (PyInt z) cells
          else if is_int64 (PyInt z) || is_uint64 (PyInt z)
          then assign hit value retyped
          else assign hit value cells
      | None => assign hit value retyped
      end
  | PyNone => assign hit (PyFloat nan) retyped
  | _ => assign hit value cells
  end.

(** The cells of a column after [value] was assigned at the positions
    marked by [hit], as pandas 2 does it. Nothing happens when no position
    is marked. A value the column holds is stored as it is, and an int
    goes into a float64 column as the float it equals. For any other value
    the column is re-typed first: a float64 or bool column that receives a
    missing value stores NaN, and in the remaining cases the column
    becomes an object column that keeps its cells and stores the value as
    it is. An int of 64 bits that no float64 equals is refused by a
    float64 column. *)
Definition setitem_cells (hit : list bool) (value : PyVal) (cells : list PyVal)
  : result (list PyVal) :=
  if forallb negb hit then Ok cells
  else
    match dtype_of cells, value with
    | int64, _ => Ok (setitem_integer is_int64 hit value cells)
    | uint64, _ => Ok (setitem_integer is_uint64 hit value cells)
    | float64, PyInt z =>
        if bool_decide (int_of_float (float_of_int z) = Some z)
        then Ok (assign hit (PyFloat (float_of_int z)) cells)
        else if is_int64 value || is_uint64 value
        then Raise (AssertionError
                      ("Something has gone wrong, please report a bug at "
                       +:+ "https://github.com/pandas-dev/pandas/issues"))
        else Ok (assign hit value cells)
    | float64, PyNone => Ok (assign hit (PyFloat nan) cells)
    | bool_, PyNone => Ok (assign hit (PyFloat nan) cells)
    | _, _ => Ok (assign hit value cells)
    end.

(** The columns of a frame after the assignment to every column named
    [column]. *)
Fixpoint setitem_columns (hit : list bool) (column : string) (value : PyVal)
    (cols : list (string * list PyVal)) : result (list (string * list PyVal)) :=
  match cols with
  | [] => Ok []
  | (name, cells) :: cols' =>
      cells' ← (if decide (name = column) then setitem_cells hit value cells
                else Ok cells);
      rest ← setitem_columns hit column value cols';
      Ok ((name, cells') :: rest)
  end.

(** [df.loc[labels, column] = value]: assigns [value] in [column] at every
    row whose label is in [labels]. A column that does not exist yet is
    added as a column of NaN first; a label that is not in the index
    raises a [KeyError], whose message lists the labels in pandas. *)
Definition loc_setitem (df : DataFrame) (labels : list Label) (column : string)
    (value : PyVal) : result DataFrame :=
  if labels_found labels (df_index df)
  then
    let hit := (λ l, bool_decide (l ∈ labels)) <$> df_index df in
    if decide (column ∈ column_names df)
    then
      cols ← setitem_columns hit column value (df_columns df);
      Ok {| df_index := df_index df; df_columns := cols |}
    else if decide (df_index df = [])
    then Raise (ValueError "cannot set a frame with no defined index and a scalar")
    else
      cells ← setitem_cells hit value ((λ _, PyFloat nan) <$> df_index df);
      Ok {| df_index := df_index df;
            df_columns := df_columns df ++ [(column, cells)] |}
  else Raise (KeyError "labels not in index").

(** [RangeIndex(n)]: the default labels 0 .. n-1. *)
Definition RangeIndex (n : nat) : list Label :=
  (λ i, LabelInt (Z.of_nat i)) <$> seq 0 n.

(** The cells of a column built from a list of Python objects. A list
    with a string, or with a boolean, keeps its objects (all booleans
    make a bool column), and so does a list of nothing but [None] and a
    list of nothing but ints. Ints, floats and [None] together make a
    float64 column, with the ints converted and NaN for [None], unless an
    int does not fit 64 bits. *)
Definition infer_objects (cells : list PyVal) : list PyVal :=
  if existsb is_str cells || existsb is_bool cells then cells
  else if negb (existsb is_float cells) && negb (existsb is_none cells) then cells
  else if negb (existsb is_float cells) && negb (existsb is_int cells) then cells
  else if forallb (λ v, negb (is_int v) || is_int64 v || is_uint64 v) cells
          && negb (existsb (λ v, is_int v && negb (is_int64 v)) cells
                   && existsb (λ v, is_int v && negb (is_uint64 v)) cells)
  then to_float <$> cells
  else cells.

(** [pandas.DataFrame(data)] for a dict of lists, given in insertion
    order: one column per key, the default index, and a [ValueError] when
    the lists differ in length. *)
Definition from_dict (data : list (string * list PyVal)) : result DataFrame :=
  match data with
  | [] => Ok {| df_index := []; df_columns := [] |}
  | (_, values) :: _ =>
      if forallb (λ c, bool_decide (length c.2 = length values)) data
      then Ok {| df_index := RangeIndex (length values);
                 df_columns := (λ c, (c.1, infer_objects c.2)) <$> data |}
      else Raise (ValueError "All arrays must be of the same length")
  end.

(** The cells of row [i], one per column, in column order. *)
Definition row (df : DataFrame) (i : nat) : list PyVal :=
  (λ c, default PyNone (c.2 !! i)) <$> df_columns df.

(** The rows of the frame, in index order. *)
Definition rows (df : DataFrame) : list (list PyVal) :=
  row df <$> seq 0 (length (df_index df)).

End pandas.

Import pandas.

(** ** The two transforms *)

(** The outlier predicate: pandas hands it the selected column (or
    columns) and indexes with what it answers; like any callable, it may
    raise. *)
Definition OutlierFunc := Selection → result Key.

Definition drop_outliers (input_df : DataFrame) (column : string)
    (outlier_func : OutlierFunc) : result DataFrame :=
  let df_copy := copy input_df in
  selected ← (getitem df_copy column ≫= λ obj, loc_callable obj outlier_func);
  let indexes := selection_index selected in
  drop df_copy indexes.

Definition impute_outliers (input_df : DataFrame) (column : string)
    (constant : PyVal) (outlier_func : OutlierFunc) : result DataFrame :=
  let df_copy := copy input_df in
  selected ← (getitem df_copy column ≫= λ obj, loc_callable obj outlier_func);
  let indexes := selection_index selected in
  loc_setitem df_copy indexes column constant.

(** ** The enumerations of the analysis *)

Inductive ErrorType := OUTLIER.

Definition ErrorType_value (e : ErrorType) : string :=
  match e with OUTLIER => "outliers" end.

Inductive Clean := FILTER | IMPUTE.

Definition Clean_value (c : Clean) : string :=
  match c with FILTER => "filter" | IMPUTE => "impute" end.

(** Python does not type the constructor's arguments: where the source
    expects a member of an enumeration it may hold a member or any other
    object, of which the code only ever reads the [value] attribute. *)
Inductive EnumArg (E : Type) :=
| Member (e : E)
| Foreign (value_attr : option string).

Arguments Member {E} e.
Arguments Foreign {E} value_attr.

#[global] Instance ErrorType_eq_dec : EqDecision ErrorType.
Proof. solve_decision. Defined.
#[global] Instance Clean_eq_dec : EqDecision Clean.
Proof. solve_decision. Defined.
#[global] Instance EnumArg_eq_dec `{EqDecision E} : EqDecision (EnumArg E).
Proof. solve_decision. Defined.

(** [obj.value] *)
Definition get_value {E} (value_of : E → string) (obj : EnumArg E) : result string :=
  match obj with
  | Member e => Ok (value_of e)
  | Foreign (Some v) => Ok v
  | Foreign None => Raise (AttributeError "value")
  end.

(** ** The pipeline graph *)

(** Modelled from the spec: the operator kinds of [mlmq.OperatorType], of
    which the spec lists these and leaves the rest open. *)
Inductive OperatorType :=
| SOURCE
| SELECTION
| PROJECTION_MODIFY
| ESTIMATOR_FIT
| PREDICT
| SCORE
| OTHER_OPERATOR (name : string).

#[global] Instance OperatorType_eq_dec : EqDecision OperatorType.
Proof. solve_decision. Defined.

Record BasicCodeLocation := mkBasicCodeLocation {
  caller_filename : string;
  lineno : option Z
}.

Record OperatorContext := mkOperatorContext {
  operator : OperatorType;
  function_info : option (string * string)
}.

Record DagNodeDetails := mkDagNodeDetails {
  description : option string;
  columns : option (list string)
}.

(** The callable attached to a node. The two [functools.partial] objects
    the analysis builds are kept as data (the function and its bound
    keyword arguments); any other callable of the recorded pipeline is
    kept as the function it is. *)
Inductive ProcessingFunc :=
| partial_drop_outliers (column : string) (outlier_func : OutlierFunc)
| partial_impute_outliers (column : string) (constant : PyVal)
    (outlier_func : OutlierFunc)
| recorded_func (f : DataFrame → result DataFrame).

(** Calling the attached callable on a frame. *)
Definition call (p : ProcessingFunc) (input_df : DataFrame) : result DataFrame :=
  match p with
  | partial_drop_outliers column outlier_func =>
      drop_outliers input_df column outlier_func
  | partial_impute_outliers column constant outlier_func =>
      impute_outliers input_df column constant outlier_func
  | recorded_func f => f input_df
  end.

Record DagNode := mkDagNode {
  node_id : Z;
  code_location : BasicCodeLocation;
  operator_info : OperatorContext;
  details : DagNodeDetails;
  optional_code_info : option string;
  processing_func : option ProcessingFunc
}.

(** [networkx.DiGraph]: the nodes in insertion order and the edges between
    node ids. *)
Record DiGraph := mkDiGraph {
  nodes : list DagNode;
  edges : list (Z * Z)
}.

(** Modelled from the spec: [find_nodes_by_type] of [mlmq.analysis], "find
    nodes by operator kind". *)
Definition find_nodes_by_type (dag : DiGraph) (operator_type : OperatorType)
  : list DagNode :=
  filter (λ node, operator (operator_info node) = operator_type) (nodes dag).

(** ** Patches *)

(** [CleanLearn.analysis_id]: the tuple
    [(column, error, impute_constant, *cleanings)]. *)
Definition AnalysisId : Type :=
  string * EnumArg ErrorType * PyVal * list (EnumArg Clean).

(** Modelled from the spec: the patch classes of [mlmq.execution._patches],
    with their constructor arguments in the order the source passes them.
    Every patch starts with its id and the analysis it belongs to. The
    spec describes the two booleans of a data patch as its applicability
    to the training and to the evaluation branch, the list of
    [DataFiltering] as the columns it depends on, and the column and list
    of [DataProjection] as the column written and the columns read. *)
Inductive PipelinePatch :=
| Extraction (patch_id : Z) (analysis : AnalysisId) (node : DagNode)
    (label : string)
| DataFiltering (patch_id : Z) (analysis : AnalysisId)
    (training_branch : bool) (filter_operator : DagNode)
    (evaluation_branch : bool) (only_reads_column : list string)
| DataProjection (patch_id : Z) (analysis : AnalysisId)
    (training_branch : bool) (projection_operator : DagNode)
    (evaluation_branch : bool) (modifies_column : string)
    (only_reads_column : list string)
    (index_selection_func : option ProcessingFunc).

(** ** The shared singleton and the analysis object *)

(** Modelled from the spec: the [singleton] of
    [mlmq.execution._pipeline_executor], holding the two monotonic id
    counters and the label-to-result mapping filled by the executor. *)
Record Singleton := mkSingleton {
  next_op_id : Z;
  next_patch_id : Z;
  labels_to_extracted_plan_results : gmap string PyVal
}.

Record CleanLearn := mkCleanLearn {
  column : string;
  error : EnumArg ErrorType;
  cleanings : list (EnumArg Clean);
  _score_nodes_and_linenos : list (DagNode * option Z);
  impute_constant : PyVal;
  outlier_func : OutlierFunc;
  _analysis_id : AnalysisId
}.

(** [CleanLearn.__init__] *)
Definition CleanLearn_init (column : string) (error : EnumArg ErrorType)
    (cleanings : list (EnumArg Clean)) (impute_constant : PyVal)
    (outlier_func : OutlierFunc) : CleanLearn :=
  {| column := column;
     error := error;
     cleanings := cleanings;
     _score_nodes_and_linenos := [];
     impute_constant := impute_constant;
     outlier_func := outlier_func;
     _analysis_id := (column, error, impute_constant, cleanings) |}.

Definition analysis_id (self : CleanLearn) : AnalysisId := _analysis_id self.

(** ** Stateful code: a state monad with exceptions *)

(** What plan generation reads and writes: the analysis object and the
    singleton. A raised exception keeps the state reached so far. *)
Record State := mkState {
  self : CleanLearn;
  singleton : Singleton
}.

Definition M (A : Type) : Type := State → result A * State.

#[global] Instance M_ret : MRet M := λ A a st, (Ok a, st).
#[global] Instance M_bind : MBind M := λ A B k m st,
  match m st with
  | (Ok a, st') => k a st'
  | (Raise e, st') => (Raise e, st')
  end.

Definition raise {A} (e : PyException) : M A := λ st, (Raise e, st).

Definition get_self : M CleanLearn := λ st, (Ok (self st), st).

(** [for x in l: acc = body(acc, x)] *)
Fixpoint for_each {A B} (body : A → B → M A) (acc : A) (l : list B) : M A :=
  match l with
  | [] => mret acc
  | x :: l' => acc' ← body acc x; for_each body acc' l'
  end.

(** The same loop for code that only raises. *)
Fixpoint for_each_result {A B} (body : A → B → result A) (acc : A) (l : list B)
  : result A :=
  match l with
  | [] => Ok acc
  | x :: l' => acc' ← body acc x; for_each_result body acc' l'
  end.

(** Modelled from the spec: the id source, "issue next node id; issue next
    patch id - monotonically increasing". *)
Definition get_next_op_id : M Z := λ st,
  let s := singleton st in
  (Ok (next_op_id s),
   {| self := self st;
      singleton := {| next_op_id := next_op_id s + 1;
                      next_patch_id := next_patch_id s;
                      labels_to_extracted_plan_results :=
                        labels_to_extracted_plan_results s |} |}).

Definition get_next_patch_id : M Z := λ st,
  let s := singleton st in
  (Ok (next_patch_id s),
   {| self := self st;
      singleton := {| next_op_id := next_op_id s;
                      next_patch_id := next_patch_id s + 1;
                      labels_to_extracted_plan_results :=
                        labels_to_extracted_plan_results s |} |}).

(** [self._score_nodes_and_linenos = value] *)
Definition set_score_nodes_and_linenos (value : list (DagNode * option Z))
  : M unit := λ st,
  let this := self st in
  (Ok (),
   {| self := {| column := column this;
                 error := error this;
                 cleanings := cleanings this;
                 _score_nodes_and_linenos := value;
                 impute_constant := impute_constant this;
                 outlier_func := outlier_func this;
                 _analysis_id := _analysis_id this |};
      singleton := singleton st |}).

(** ** String formatting *)

(** [f"{lineno}"] for a line number that is an int or [None]. *)
Definition format_lineno (lineno : option Z) : string :=
  match lineno with Some n => pretty n | None => "None" end.

(** [f"{description}"] for a description that is a str or [None]. *)
Definition format_description (description : option string) : string :=
  match description with Some d => d | None => "None" end.

(** [f"data-cleaning-{column}-{value}"] *)
Definition cleaning_label (column value : string) : string :=
  "data-cleaning-" +:+ column +:+ "-" +:+ value.

(** [f"{label}_L{lineno}"] *)
Definition at_line (label : string) (lineno : option Z) : string :=
  label +:+ "_L" +:+ format_lineno lineno.

(** ** The failures named by the spec, as the source raises them *)

Definition MultiplePredictNodes : PyException :=
  Exception ("Currently, DataCorruption only supports pipelines with exactly one predict call which "
             +:+ "must be on the test set!").

Definition AmbiguousScoreNodeIdentity : PyException :=
  Exception ("Currently, DataCorruption only supports pipelines where different score operations can "
             +:+ "be uniquely identified by the line number in the code!").

Definition UnsupportedErrorKind : PyException :=
  Exception ("Please use the actual DataCleaning analysis instead of this more simple one"
             +:+ " for the running example!").

Definition UnknownCleaningMethod : PyException :=
  Exception "Unknown cleaning. Please use the real, more complex DataCleaning what-if analysis.".

(** A label that is not a key of the results mapping: the [KeyError] of
    the dict lookup. *)
Definition MissingExtractedResult (label : string) : PyException := KeyError label.

(** ** Python dicts that keep insertion order *)

Definition PyDict : Type := list (string * list PyVal).

(** [d.get(key, default)] *)
Definition dict_get (d : PyDict) (key : string) (default : list PyVal)
  : list PyVal :=
  match column_lookup key d with
  | Some v => v
  | None => default
  end.

(** [d[key] = value]: an existing key keeps its position, a new key is
    added at the end. *)
Fixpoint dict_set (key : string) (value : list PyVal) (d : PyDict) : PyDict :=
  match d with
  | [] => [(key, value)]
  | (k, v) :: d' =>
      if decide (k = key) then (k, value) :: d' else (k, v) :: dict_set key value d'
  end.

(** [{**d, **other}] *)
Definition dict_update (d other : PyDict) : PyDict :=
  foldl (λ acc kv, dict_set kv.1 kv.2 acc) d other.

(** [mapping[label]] on the results mapping. *)
Definition results_getitem (mapping : gmap string PyVal) (label : string)
  : result PyVal :=
  match mapping !! label with
  | Some v => Ok v
  | None => Raise (MissingExtractedResult label)
  end.

(** ** The analysis *)

Section CleanLearn.

(** [get_columns_used_as_feature] of [mlmq.analysis] is not part of the
    analysed file; the analysis is verified for every such graph query. *)
Variable get_columns_used_as_feature : DiGraph → list string.

(** Modelled from the spec: the extraction-patch builder of
    [mlmq.analysis._patch_creation], "given a label prefix and the set of
    (SCORE node, source line) pairs, returns one Extraction patch per pair
    that, once executed, stores that node's output into the results
    mapping under [{prefix}_L{line}]". Each patch takes its id from the
    shared counter. *)
Fixpoint get_intermediate_extraction_patch_after_score_nodes
    (analysis : AnalysisId) (label : string)
    (score_nodes_and_linenos : list (DagNode * option Z))
  : M (list PipelinePatch) :=
  match score_nodes_and_linenos with
  | [] => mret []
  | (node, lineno) :: rest =>
      patch_id ← get_next_patch_id;
      patches ← get_intermediate_extraction_patch_after_score_nodes analysis label rest;
      mret (Extraction patch_id analysis node (at_line label lineno) :: patches)
  end.

(** The key under which Python's [set] identifies a (node, line) tuple.
    Modelled from the spec: the identity of an operator node is its id. *)
Definition score_key (entry : DagNode * option Z) : Z * option Z :=
  (node_id entry.1, entry.2).

(** [len(set(entries))] *)
Definition distinct_count (entries : list (DagNode * option Z)) : nat :=
  size (list_to_set (score_key <$> entries) : gset (Z * option Z)).

(** The body of the loop over [self.cleanings] in [generate_plans_to_try]:
    the patches of one variant. *)
Definition patches_for_cleaning (dag : DiGraph) (cleaning : EnumArg Clean)
  : M (list PipelinePatch) :=
  this ← get_self;
  match cleaning with
  | Member FILTER =>
      let cleaning_result_label := cleaning_label (column this) (Clean_value FILTER) in
      let patches_for_variant := [] in
      extraction_nodes ←
        get_intermediate_extraction_patch_after_score_nodes
          (analysis_id this) cleaning_result_label (_score_nodes_and_linenos this);
      let patches_for_variant := patches_for_variant ++ extraction_nodes in
      let feature_cols : gset string := list_to_set (get_columns_used_as_feature dag) in
      let required_cols :=
        if decide (column this ∈ feature_cols)
        then elements feature_cols
        else [column this] in
      let filter_func := partial_drop_outliers (column this) (outlier_func this) in
      op_id ← get_next_op_id;
      let new_test_cleaning_node :=
        {| node_id := op_id;
           code_location := mkBasicCodeLocation "Data Cleaning" None;
           operator_info := mkOperatorContext SELECTION None;
           details := mkDagNodeDetails (Some ("Clean " +:+ column this +:+ ": filter")) None;
           optional_code_info := None;
           processing_func := Some filter_func |} in
      patch_id ← get_next_patch_id;
      let filter_patch_train :=
        DataFiltering patch_id (analysis_id this) true new_test_cleaning_node false
          required_cols in
      mret (patches_for_variant ++ [filter_patch_train])
  | Member IMPUTE =>
      let cleaning_result_label := cleaning_label (column this) (Clean_value IMPUTE) in
      let patches_for_variant := [] in
      extraction_nodes ←
        get_intermediate_extraction_patch_after_score_nodes
          (analysis_id this) cleaning_result_label (_score_nodes_and_linenos this);
      let patches_for_variant := patches_for_variant ++ extraction_nodes in
      let only_reads_column := [column this] in
      let projection :=
        partial_impute_outliers (column this) (impute_constant this) (outlier_func this) in
      op_id ← get_next_op_id;
      let new_projection_node :=
        {| node_id := op_id;
           code_location := mkBasicCodeLocation "DataCorruption" None;
           operator_info := mkOperatorContext PROJECTION_MODIFY None;
           details := mkDagNodeDetails (Some ("Clean " +:+ column this +:+ ": impute")) None;
           optional_code_info := None;
           processing_func := Some projection |} in
      patch_id ← get_next_patch_id;
      let patch :=
        DataProjection patch_id (analysis_id this) true new_projection_node false
          (column this) only_reads_column None in
      mret (patches_for_variant ++ [patch])
  | Foreign _ => raise UnknownCleaningMethod
  end.

(** [CleanLearn.generate_plans_to_try] *)
Definition generate_plans_to_try (dag : DiGraph) : M (list (list PipelinePatch)) :=
  let predict_operators := find_nodes_by_type dag PREDICT in
  if decide (length predict_operators ≠ 1) then raise MultiplePredictNodes else
  let score_operators := find_nodes_by_type dag SCORE in
  set_score_nodes_and_linenos
    ((λ node, (node, lineno (code_location node))) <$> score_operators) ;;
  this ← get_self;
  if decide (length (_score_nodes_and_linenos this)
             ≠ distinct_count (_score_nodes_and_linenos this))
  then raise AmbiguousScoreNodeIdentity else
  if decide (error this ≠ Member OUTLIER) then raise UnsupportedErrorKind else
  for_each
    (λ cleaning_patch_sets cleaning,
       patches_for_variant ← patches_for_cleaning dag cleaning;
       mret (cleaning_patch_sets ++ [patches_for_variant]))
    [] (cleanings this).

(** The four accumulators of [generate_final_report]. *)
Record ReportColumns := mkReportColumns {
  result_df_columns : list PyVal;
  result_df_errors : list PyVal;
  result_df_cleaning_methods : list PyVal;
  result_df_metrics : PyDict
}.

(** The three statements that append the value stored under [label] to the
    metric column [test_result_column_name]. *)
Definition append_metric (singleton : Singleton) (label : string)
    (test_result_column_name : string) (result_df_metrics : PyDict)
  : result PyDict :=
  let test_column_values := dict_get result_df_metrics test_result_column_name [] in
  value ← results_getitem (labels_to_extracted_plan_results singleton) label;
  let test_column_values := test_column_values ++ [value] in
  Ok (dict_set test_result_column_name test_column_values result_df_metrics).

(** The body of the loop over [self.cleanings] in
    [generate_final_report]: the row of one cleaning method. *)
Definition report_row (singleton : Singleton)
    (score_description_and_linenos : list (option string * option Z))
    (column : string) (error_type : EnumArg ErrorType)
    (acc : ReportColumns) (cleaning : EnumArg Clean) : result ReportColumns :=
  error_value ← get_value ErrorType_value error_type;
  cleaning_value ← get_value Clean_value cleaning;
  metrics ←
    for_each_result
      (λ metrics (entry : option string * option Z),
         let cleaning_result_label :=
           at_line (cleaning_label column cleaning_value) entry.2 in
         let test_result_column_name :=
           at_line (format_description entry.1) entry.2 in
         append_metric singleton cleaning_result_label
           test_result_column_name metrics)
      (result_df_metrics acc) score_description_and_linenos;
  Ok {| result_df_columns := result_df_columns acc ++ [PyStr column];
        result_df_errors := result_df_errors acc ++ [PyStr error_value];
        result_df_cleaning_methods :=
          result_df_cleaning_methods acc ++ [PyStr cleaning_value];
        result_df_metrics := metrics |}.

(** [CleanLearn.generate_final_report]. The argument
    [extracted_plan_results] is the one the source declares. *)
Definition generate_final_report (self : CleanLearn) (singleton : Singleton)
    (extracted_plan_results : gmap string PyVal) : result DataFrame :=
  let score_description_and_linenos :=
    (λ entry : DagNode * option Z, (description (details entry.1), entry.2))
      <$> _score_nodes_and_linenos self in
  baseline_metrics ←
    for_each_result
      (λ metrics (entry : option string * option Z),
         let original_pipeline_result_label := at_line "original" entry.2 in
         let test_result_column_name := at_line (format_description entry.1) entry.2 in
         append_metric singleton original_pipeline_result_label
           test_result_column_name metrics)
      [] score_description_and_linenos;
  final ←
    for_each_result
      (λ acc (pair : string * EnumArg ErrorType),
         for_each_result
           (report_row singleton score_description_and_linenos pair.1 pair.2)
           acc (cleanings self))
      {| result_df_columns := [PyNone];
         result_df_errors := [PyNone];
         result_df_cleaning_methods := [PyNone];
         result_df_metrics := baseline_metrics |}
      [(column self, error self)];
  from_dict
    (dict_update
       [("corrupted_column", result_df_columns final);
        ("error", result_df_errors final);
        ("cleaning_method", result_df_cleaning_methods final)]
       (result_df_metrics final)).

End CleanLearn.

(** ** What the spec says of the two transforms, as frames *)

(** The cell of [column] in row [i], if both exist. *)
Definition cell (df : DataFrame) (column : string) (i : nat) : option PyVal :=
  column_lookup column (df_columns df) ≫= λ values, values !! i.

(** The frame the spec describes for [impute_outliers]: the rows of [df],
    with [constant] in [column] at the rows marked by [mask]. *)
Definition replace_rows (mask : list bool) (column : string) (constant : PyVal)
    (df : DataFrame) : DataFrame :=
  {| df_index := df_index df;
     df_columns :=
       (λ c, if decide (c.1 = column) then (c.1, assign mask constant c.2) else c)
         <$> df_columns df |}.

(** ** Example inputs *)

(** [v > 100] for a cell [v] of a column, as pandas evaluates it: a
    missing value compares false, a string cannot be compared with an
    int. *)
Definition greater_than_100 (v : PyVal) : result bool :=
  match v with
  | PyInt z => Ok (100 <? z)%Z
  | PyFloat f => Ok (PrimFloat.ltb 100 f)
  | PyBool _ => Ok false
  | PyNone => Ok false
  | PyStr _ =>
      Raise (TypeError "'>' not supported between instances of 'str' and 'int'")
  end.

Fixpoint compare_cells (cells : list PyVal) : result (list bool) :=
  match cells with
  | [] => Ok []
  | v :: cells' =>
      b ← greater_than_100 v;
      mask ← compare_cells cells';
      Ok (b :: mask)
  end.

Fixpoint compare_columns (cols : list (string * list PyVal)) : result unit :=
  match cols with
  | [] => Ok ()
  | c :: cols' => _ ← compare_cells c.2; compare_columns cols'
  end.

(** [lambda s: s > 100] *)
Definition over_100 : OutlierFunc := λ obj,
  match obj with
  | OneColumn s => mask ← compare_cells (s_values s); Ok (Mask mask)
  | SeveralColumns df => _ ← compare_columns (df_columns df); Ok FrameMask
  end.

(** Two rows with distinct labels, the first an outlier. *)
Definition people : DataFrame :=
  {| df_index := [LabelInt 0; LabelInt 1];
     df_columns := [("age", [PyInt 200; PyInt 30]);
                    ("name", [PyStr "ann"; PyStr "bob"])] |}.

(** The same rows under one repeated label, as two frames concatenated
    without re-indexing have. *)
Definition people_same_label : DataFrame :=
  {| df_index := [LabelInt 0; LabelInt 0];
     df_columns := [("age", [PyInt 200; PyInt 30]);
                    ("name", [PyStr "ann"; PyStr "bob"])] |}.

(** ** The labels a report needs *)

(** The labels [generate_final_report] looks up for a spec with cleaning
    methods [methods]: the baseline label of every score line, then, per
    method in request order, the method's label of every score line. *)
Definition required_labels (column : string) (methods : list Clean)
    (score_nodes_and_linenos : list (DagNode * option Z)) : list string :=
  let linenos := snd <$> score_nodes_and_linenos in
  (at_line "original" <$> linenos)
  ++ (methods ≫= λ method,
        at_line (cleaning_label column (Clean_value method)) <$> linenos).

(** ** Example inputs of the analysis *)

Definition recorded_node (id : Z) (op : OperatorType) (description : option string)
    (line : Z) : DagNode :=
  {| node_id := id;
     code_location := mkBasicCodeLocation "pipeline.py" (Some line);
     operator_info := mkOperatorContext op None;
     details := mkDagNodeDetails description None;
     optional_code_info := None;
     processing_func := None |}.

Definition accuracy_node : DagNode := recorded_node 2 SCORE (Some "accuracy") 42.

(** A pipeline with one prediction scored once, at line 42. *)
Definition example_dag : DiGraph :=
  {| nodes := [recorded_node 0 SOURCE None 10;
               recorded_node 1 PREDICT None 40;
               accuracy_node];
     edges := [(0, 1); (1, 2)]%Z |}.

(** The same pipeline with a second prediction. *)
Definition two_predicts_dag : DiGraph :=
  {| nodes := [recorded_node 0 SOURCE None 10;
               recorded_node 1 PREDICT None 40;
               recorded_node 3 PREDICT None 41;
               accuracy_node];
     edges := [(0, 1); (0, 3); (1, 2)]%Z |}.

Definition example_features (dag : DiGraph) : list string := ["age"; "income"].

Definition example_analysis : CleanLearn :=
  CleanLearn_init "age" (Member OUTLIER) [Member FILTER; Member IMPUTE]
    (PyInt 50) over_100.

(** The analysis object once plan generation has recorded the score node. *)
Definition example_analysis_with_scores : CleanLearn :=
  {| column := "age";
     error := Member OUTLIER;
     cleanings := [Member FILTER; Member IMPUTE];
     _score_nodes_and_linenos := [(accuracy_node, Some 42%Z)];
     impute_constant := PyInt 50;
     outlier_func := over_100;
     _analysis_id := ("age", Member OUTLIER, PyInt 50, [Member FILTER; Member IMPUTE]) |}.

Definition example_results : gmap string PyVal :=
  <["original_L42" := PyFloat 0.80]>
    (<["data-cleaning-age-filter_L42" := PyFloat 0.83]>
       (<["data-cleaning-age-impute_L42" := PyFloat 0.81]> ∅)).

(** The results of a run in which the impute variant produced nothing. *)
Definition results_without_impute : gmap string PyVal :=
  <["original_L42" := PyFloat 0.80]>
    (<["data-cleaning-age-filter_L42" := PyFloat 0.83]> ∅).

Definition example_singleton : Singleton :=
  {| next_op_id := 100; next_patch_id := 7;
     labels_to_extracted_plan_results := example_results |}.

Definition fresh_singleton : Singleton :=
  {| next_op_id := 100; next_patch_id := 7;
     labels_to_extracted_plan_results := ∅ |}.

(** ** Plan generation in closed form *)

(** The (node, line) pairs [generate_plans_to_try] records for a graph. *)
Definition recorded_scores (dag : DiGraph) : list (DagNode * option Z) :=
  (λ node, (node, lineno (code_location node))) <$> find_nodes_by_type dag SCORE.

(** The cleaning method a data patch embodies. *)
Definition patch_method (patch : PipelinePatch) : option Clean :=
  match patch with
  | Extraction _ _ _ _ => None
  | DataFiltering _ _ _ _ _ _ => Some FILTER
  | DataProjection _ _ _ _ _ _ _ _ => Some IMPUTE
  end.

(** The node a data patch inserts. *)
Definition patch_node (patch : PipelinePatch) : option DagNode :=
  match patch with
  | Extraction _ _ _ _ => None
  | DataFiltering _ _ _ node _ _ => Some node
  | DataProjection _ _ _ node _ _ _ _ => Some node
  end.

(** An extraction patch of [analysis] that captures the output of the score
    node of [entry] under the label of [prefix] at the entry's line. *)
Definition extracts (analysis : AnalysisId) (prefix : string)
    (entry : DagNode * option Z) (patch : PipelinePatch) : Prop :=
  ∃ patch_id, patch = Extraction patch_id analysis entry.1 (at_line prefix entry.2).

(** The state after [ops] node ids and [patches] patch ids were issued. *)
Definition issued (ops patches : Z) (st : State) : State :=
  {| self := self st;
     singleton :=
       {| next_op_id := next_op_id (singleton st) + ops;
          next_patch_id := next_patch_id (singleton st) + patches;
          labels_to_extracted_plan_results :=
            labels_to_extracted_plan_results (singleton st) |} |}.

(** The state after [self._score_nodes_and_linenos = scores]. *)
Definition recorded (scores : list (DagNode * option Z)) (st : State) : State :=
  (set_score_nodes_and_linenos scores st).2.

Section closed_form.

Variable get_columns_used_as_feature : DiGraph → list string.

(** The extraction patches of one variant, with patch ids from
    [first_patch_id] on. *)
Definition extraction_patches (analysis : AnalysisId) (prefix : string)
    (scores : list (DagNode * option Z)) (first_patch_id : Z) : list PipelinePatch :=
  imap (λ j entry,
          Extraction (first_patch_id + Z.of_nat j) analysis entry.1 (at_line prefix entry.2))
    scores.

(** The patches the loop body leaves for [method] when the next free ids
    are [op_id] and [first_patch_id]. *)
Definition built_variant (this : CleanLearn) (dag : DiGraph) (method : Clean)
    (op_id first_patch_id : Z) : list PipelinePatch :=
  let scores := _score_nodes_and_linenos this in
  let patch_id := (first_patch_id + Z.of_nat (length scores))%Z in
  extraction_patches (analysis_id this)
    (cleaning_label (column this) (Clean_value method)) scores first_patch_id
  ++ [match method with
      | FILTER =>
          DataFiltering patch_id (analysis_id this) true
            {| node_id := op_id;
               code_location := mkBasicCodeLocation "Data Cleaning" None;
               operator_info := mkOperatorContext SELECTION None;
               details :=
                 mkDagNodeDetails (Some ("Clean " +:+ column this +:+ ": filter")) None;
               optional_code_info := None;
               processing_func :=
                 Some (partial_drop_outliers (column this) (outlier_func this)) |}
            false
            (if decide (column this
                        ∈ (list_to_set (get_columns_used_as_feature dag) : gset string))
             then elements (list_to_set (get_columns_used_as_feature dag) : gset string)
             else [column this])
      | IMPUTE =>
          DataProjection patch_id (analysis_id this) true
            {| node_id := op_id;
               code_location := mkBasicCodeLocation "DataCorruption" None;
               operator_info := mkOperatorContext PROJECTION_MODIFY None;
               details :=
                 mkDagNodeDetails (Some ("Clean " +:+ column this +:+ ": impute")) None;
               optional_code_info := None;
               processing_func :=
                 Some (partial_impute_outliers (column this) (impute_constant this)
                         (outlier_func this)) |}
            false (column this) [column this] None
      end].

(** All variants of a run that starts with the free ids [op_id] and
    [patch_id]: variant [i] takes one node id and one patch id per score
    node plus one. *)
Definition built_variants (this : CleanLearn) (dag : DiGraph) (methods : list Clean)
    (op_id patch_id : Z) : list (list PipelinePatch) :=
  imap (λ i method,
          built_variant this dag method (op_id + Z.of_nat i)
            (patch_id
             + Z.of_nat i * (Z.of_nat (length (_score_nodes_and_linenos this)) + 1)))
    methods.

End closed_form.

(** ** Further definitions used by the properties *)

(** A predicate that judges every cell on its own and never raises, as
    [lambda s: s > 100] does on a column of numbers; of a frame it makes
    a mask with one entry per cell. *)
Definition elementwise (p : PyVal → bool) : OutlierFunc := λ obj,
  match obj with
  | OneColumn s => Ok (Mask (p <$> s_values s))
  | SeveralColumns _ => Ok FrameMask
  end.

(** The id, the owning analysis and, for an extraction patch, the label of
    a patch. *)
Definition patch_id_of (patch : PipelinePatch) : Z :=
  match patch with
  | Extraction patch_id _ _ _ => patch_id
  | DataFiltering patch_id _ _ _ _ _ => patch_id
  | DataProjection patch_id _ _ _ _ _ _ _ => patch_id
  end.

Definition patch_analysis (patch : PipelinePatch) : AnalysisId :=
  match patch with
  | Extraction _ analysis _ _ => analysis
  | DataFiltering _ analysis _ _ _ _ => analysis
  | DataProjection _ analysis _ _ _ _ _ _ => analysis
  end.

Definition patch_label (patch : PipelinePatch) : option string :=
  match patch with
  | Extraction _ _ _ label => Some label
  | _ => None
  end.

(** The two booleans of a data patch, in the order the source passes
    them. *)
Definition patch_flags (patch : PipelinePatch) : option (bool * bool) :=
  match patch with
  | Extraction _ _ _ _ => None
  | DataFiltering _ _ training _ evaluation _ => Some (training, evaluation)
  | DataProjection _ _ training _ evaluation _ _ _ => Some (training, evaluation)
  end.

(** The name of the metric column of a score entry:
    [f"{score_description}_L{lineno}"]. *)
Definition metric_name (entry : DagNode * option Z) : string :=
  at_line (format_description (description (details entry.1))) entry.2.

(** The value stored under a label that is present. *)
Definition stored (results : gmap string PyVal) (label : string) : PyVal :=
  default PyNone (results !! label).

(** The values of the metric column of a score entry: the baseline value
    of its line, then the value of every cleaning method at its line. *)
Definition metric_values (results : gmap string PyVal) (column : string)
    (methods : list Clean) (lineno : option Z) : list PyVal :=
  stored results (at_line "original" lineno)
  :: ((λ method,
         stored results (at_line (cleaning_label column (Clean_value method)) lineno))
        <$> methods).

(** The three metadata columns of a report. *)
Definition metadata_columns (column : string) (error_type : ErrorType)
    (methods : list Clean) : PyDict :=
  [("corrupted_column", PyNone :: ((λ _, PyStr column) <$> methods));
   ("error", PyNone :: ((λ _, PyStr (ErrorType_value error_type)) <$> methods));
   ("cleaning_method", PyNone :: ((λ method, PyStr (Clean_value method)) <$> methods))].

(** The table of a report in closed form: the three metadata columns, then
    one metric column per score entry; one row for the baseline and one
    per cleaning method. *)
Definition expected_report (results : gmap string PyVal) (column : string)
    (error_type : ErrorType) (methods : list Clean)
    (scores : list (DagNode * option Z)) : DataFrame :=
  {| df_index := RangeIndex (S (length methods));
     df_columns :=
       metadata_columns column error_type methods
       ++ ((λ entry, (metric_name entry,
                      metric_values results column methods entry.2))
             <$> scores) |}.

(** The results stored under [labels] are floats, as scores are. *)
Definition float_results (results : gmap string PyVal) (labels : list string) : Prop :=
  Forall (λ label, ∃ f, results !! label = Some (PyFloat f)) labels.

(** One [append_metric] whose label is present, as a function on the
    metrics dict. *)
Definition record_metric (name : string) (value : PyVal) (metrics : PyDict) : PyDict :=
  dict_set name (dict_get metrics name [] ++ [value]) metrics.

(** ** Further example inputs *)

Definition f1_node : DagNode := recorded_node 4 SCORE (Some "f1") 42.

(** Two different scores computed on one source line. *)
Definition same_line_dag : DiGraph :=
  {| nodes := [recorded_node 1 PREDICT None 40; accuracy_node; f1_node];
     edges := [(1, 2); (1, 4)]%Z |}.

(** An analysis created with an object that is no error kind and has no
    [value], such as a string. *)
Definition untyped_error_analysis : CleanLearn :=
  CleanLearn_init "age" (Foreign None) [Member FILTER] (PyInt 50) over_100.

(** An analysis that asks for a cleaning the code does not know, between
    two it knows. *)
Definition unknown_cleaning_analysis : CleanLearn :=
  CleanLearn_init "age" (Member OUTLIER)
    [Member FILTER; Foreign (Some "standardize"); Member IMPUTE] (PyInt 50) over_100.

(** The metrics dict [generate_final_report] builds when every label is
    present: the pass over the score entries for the baseline, then one
    pass per cleaning method. *)
Definition metrics_of (results : gmap string PyVal) (column : string)
    (methods : list Clean) (scores : list (DagNode * option Z)) : PyDict :=
  foldl
    (λ metrics method,
       foldl (λ metrics entry,
                record_metric (metric_name entry)
                  (stored results
                     (at_line (cleaning_label column (Clean_value method)) entry.2))
                  metrics)
         metrics scores)
    (foldl (λ metrics entry,
              record_metric (metric_name entry)
                (stored results (at_line "original" entry.2)) metrics)
       [] scores)
    methods.


(** The analysis object once plan generation has recorded the two score
    nodes of [same_line_dag]. *)
Definition same_line_analysis : CleanLearn :=
  {| column := "age";
     error := Member OUTLIER;
     cleanings := [Member FILTER; Member IMPUTE];
     _score_nodes_and_linenos := [(accuracy_node, Some 42%Z); (f1_node, Some 42%Z)];
     impute_constant := PyInt 50;
     outlier_func := over_100;
     _analysis_id := ("age", Member OUTLIER, PyInt 50, [Member FILTER; Member IMPUTE]) |}.

Definition second_accuracy_node : DagNode :=
  recorded_node 5 SCORE (Some "accuracy") 42.

(** The analysis object once plan generation has recorded two accuracy
    scores computed on one line. *)
Definition shared_name_analysis : CleanLearn :=
  {| column := "age";
     error := Member OUTLIER;
     cleanings := [Member FILTER; Member IMPUTE];
     _score_nodes_and_linenos :=
       [(accuracy_node, Some 42%Z); (second_accuracy_node, Some 42%Z)];
     impute_constant := PyInt 50;
     outlier_func := over_100;
     _analysis_id := ("age", Member OUTLIER, PyInt 50, [Member FILTER; Member IMPUTE]) |}.

(** * Properties *)

(** ** Boolean indexing *)

Section select.
Context {A : Type}.
Implicit Types (mask : list bool) (l : list A).

Lemma select_elem_of mask l x : x ∈ select mask l → x ∈ l.
Proof.
  revert l; induction mask as [|b mask IH]; intros [|y l]; simpl; try by inversion 1.
  destruct b; rewrite ?elem_of_cons; intros H; [destruct H as [->|H]|]; eauto.
Qed.

Lemma select_none mask l : Forall (λ b, b = false) mask → select mask l = [].
Proof.
  intros H; revert l; induction H as [|b mask -> _ IH]; intros [|y l]; simpl; auto.
Qed.

Lemma select_all mask l :
  (length l ≤ length mask)%nat → Forall (λ b, b = true) mask → select mask l = l.
Proof.
  intros Hlen H; revert l Hlen.
  induction H as [|b mask -> _ IH]; intros [|y l]; simpl; intros Hlen; auto; try lia.
  f_equal. apply IH. lia.
Qed.

End select.

Lemma labels_found_select mask (index : list Label) :
  labels_found (select mask index) index = true.
Proof.
  unfold labels_found. apply forallb_forall. intros l Hl.
  apply bool_decide_eq_true. apply select_elem_of with mask.
  by apply list_elem_of_In.
Qed.

(** With distinct labels, a label is among the selected ones exactly when
    its own row is selected. *)
Lemma selected_labels_mask mask (index : list Label) :
  NoDup index → length mask = length index →
  (λ l, bool_decide (l ∈ select mask index)) <$> index = mask.
Proof.
  intros Hnd; revert mask.
  induction Hnd as [|a index Ha Hnd IH]; intros [|b mask] Hlen; simplify_eq/=; auto.
  f_equal.
  - destruct b.
    + apply bool_decide_eq_true. left.
    + apply bool_decide_eq_false. intros H. apply Ha. by eapply select_elem_of.
  - etrans; [|by apply (IH mask)].
    apply list_fmap_ext. intros i x Hx.
    apply bool_decide_ext. destruct b; [|done].
    rewrite elem_of_cons. split; [|by right].
    intros [->|H]; [|done]. exfalso. apply Ha. eapply list_elem_of_lookup_2; eauto.
Qed.

Lemma unselected_labels_mask mask (index : list Label) :
  NoDup index → length mask = length index →
  (λ l, bool_decide (l ∉ select mask index)) <$> index = negb <$> mask.
Proof.
  intros Hnd Hlen.
  transitivity (negb <$> ((λ l, bool_decide (l ∈ select mask index)) <$> index));
    [|by rewrite selected_labels_mask].
  rewrite <- list_fmap_compose. apply list_fmap_ext. intros i x _. simpl.
  by rewrite bool_decide_not.
Qed.

Lemma take_rows_all mask df :
  well_formed df → length (df_index df) = length mask →
  Forall (λ b, b = true) mask → take_rows mask df = df.
Proof.
  intros Hwf Hlen Hall. destruct df as [index cols]. unfold take_rows; simpl in *.
  f_equal; [apply select_all; [lia|done]|].
  unfold well_formed in Hwf; simpl in Hwf.
  induction Hwf as [|[name values] cols Hc _ IH]; simpl; [done|].
  f_equal; [|done]. f_equal. apply select_all; [simpl in Hc; lia|done].
Qed.

(** ** Selecting the outliers *)

Lemma column_lookup_filter column cols :
  column_lookup column cols = snd <$> head (filter (λ c, c.1 = column) cols).
Proof.
  induction cols as [|[name values] cols IH]; [done|]. simpl.
  destruct (decide (name = column)) as [Hn|Hn].
  - by rewrite filter_cons_True.
  - by rewrite filter_cons_False.
Qed.

Lemma getitem_index df column obj :
  getitem df column = Ok obj → selection_index obj = df_index df.
Proof.
  unfold getitem.
  destruct (filter _ (df_columns df)) as [|[name values] [|c cols]];
    intros H; by simplify_eq.
Qed.

Lemma getitem_OneColumn df column s :
  getitem df column = Ok (OneColumn s) →
  s_index s = df_index df
  ∧ column_lookup column (df_columns df) = Some (s_values s)
  ∧ filter (λ c, c.1 = column) (df_columns df) = [(column, s_values s)].
Proof.
  unfold getitem. rewrite column_lookup_filter.
  destruct (filter _ (df_columns df)) as [|[name values] [|c cols]] eqn:Hf;
    intros H; simplify_eq. simpl. split; [done|]. split; [done|].
  assert (Hin : (name, values) ∈ filter (λ c, c.1 = column) (df_columns df))
    by (rewrite Hf; left).
  apply list_elem_of_filter in Hin as [Hname _]. simpl in Hname. by subst.
Qed.

Lemma selection_index_rows mask obj :
  selection_index (selection_rows mask obj) = select mask (selection_index obj).
Proof. by destruct obj. Qed.

Lemma loc_callable_Mask obj f mask :
  f obj = Ok (Mask mask) →
  mask = [] ∨ length mask = length (selection_index obj) →
  loc_callable obj f = Ok (selection_rows mask obj).
Proof. intros Hf Hlen. unfold loc_callable. rewrite Hf. simpl. by rewrite decide_True. Qed.

(** What a successful selection of the outliers tells: the predicate
    answered with a mask that is empty or covers the rows. *)
Lemma selection_Ok df column f selected :
  (getitem df column ≫= λ obj, loc_callable obj f) = Ok selected →
  ∃ obj mask,
    getitem df column = Ok obj
    ∧ f obj = Ok (Mask mask)
    ∧ (mask = [] ∨ length mask = length (df_index df))
    ∧ selected = selection_rows mask obj.
Proof.
  destruct (getitem df column) as [obj|e] eqn:Hget; [|done]. simpl.
  pose proof (getitem_index _ _ _ Hget) as Hidx.
  unfold loc_callable. destruct (f obj) as [[mask|]|e] eqn:Hf; simpl; [|done|done].
  case_decide as Hlen; [|done]. intros [= <-].
  exists obj, mask. by rewrite <- Hidx.
Qed.

(** What [drop_outliers] computes once the predicate has answered with a
    mask: the rows whose label none of the outliers carries. *)
Lemma drop_outliers_by_label df column f obj mask :
  getitem df column = Ok obj →
  f obj = Ok (Mask mask) →
  mask = [] ∨ length mask = length (df_index df) →
  drop_outliers df column f
    = Ok (take_rows
            ((λ l, bool_decide (l ∉ select mask (df_index df))) <$> df_index df) df).
Proof.
  intros Hget Hf Hlen. pose proof (getitem_index _ _ _ Hget) as Hidx.
  unfold drop_outliers, copy. rewrite Hget. simpl.
  rewrite (loc_callable_Mask obj f mask) by (by rewrite ?Hidx). simpl.
  rewrite selection_index_rows, Hidx.
  unfold drop. by rewrite labels_found_select.
Qed.

(** C3, evaluated at a frame with a repeated index label. The predicate
    holds in the first row only, and the claim asks for the frame of the
    second row; [drop_outliers] returns a frame without rows, because the
    second row carries the label of the first and is dropped with it. On
    the same rows under distinct labels it returns the second row. *)
Theorem drop_outliers_repeated_label :
  getitem people_same_label "age"
  = Ok (OneColumn (mkSeries [LabelInt 0; LabelInt 0] [PyInt 200; PyInt 30]))
  ∧ over_100 (OneColumn (mkSeries [LabelInt 0; LabelInt 0] [PyInt 200; PyInt 30]))
    = Ok (Mask [true; false])
  ∧ take_rows (negb <$> [true; false]) people_same_label
    = {| df_index := [LabelInt 0];
         df_columns := [("age", [PyInt 30]); ("name", [PyStr "bob"])] |}
  ∧ drop_outliers people_same_label "age" over_100
    = Ok {| df_index := []; df_columns := [("age", []); ("name", [])] |}
  ∧ drop_outliers people "age" over_100
    = Ok {| df_index := [LabelInt 1];
            df_columns := [("age", [PyInt 30]); ("name", [PyStr "bob"])] |}.
Proof. repeat split; reflexivity. Qed.

(** ** Imputation *)

Lemma assign_none hit value values :
  forallb negb hit = true → assign hit value values = values.
Proof.
  revert values. induction hit as [|h hit IH]; intros [|v values]; simpl; try done.
  destruct h; simpl; [done|]. intros H. by rewrite IH.
Qed.

Lemma length_assign hit value values :
  length (assign hit value values) = length values.
Proof.
  revert values. induction hit as [|h hit IH]; intros [|v values]; simpl; auto.
Qed.

Lemma assign_lookup hit value values i :
  assign hit value values !! i
  = (λ v, if default false (hit !! i) then value else v) <$> values !! i.
Proof.
  revert values i. induction hit as [|h hit IH]; intros [|v values] i; simpl.
  - done.
  - destruct i as [|i]; simpl; [done|]. by destruct (values !! i).
  - done.
  - destruct i as [|i]; simpl; [done|]. apply IH.
Qed.

(** A value the column holds is stored as it is. *)
Lemma setitem_cells_holds hit value cells :
  holds cells value = true →
  setitem_cells hit value cells = Ok (assign hit value cells).
Proof.
  unfold holds, setitem_cells. intros Hholds.
  destruct (forallb negb hit) eqn:Hhit; [by rewrite assign_none|].
  destruct (dtype_of cells), value; try done; unfold setitem_integer;
    by rewrite Hholds.
Qed.

Lemma setitem_columns_holds hit column value cols :
  Forall (λ c, c.1 = column → holds c.2 value = true) cols →
  setitem_columns hit column value cols
  = Ok ((λ c, if decide (c.1 = column) then (c.1, assign hit value c.2) else c)
          <$> cols).
Proof.
  induction 1 as [|[name cells] cols Hc _ IH]; [done|].
  cbn [setitem_columns]. rewrite IH. rewrite fmap_cons. cbn [fst snd].
  destruct (decide (name = column)) as [Hn|Hn]; [|done].
  by rewrite setitem_cells_holds by auto.
Qed.

Lemma column_names_elem_of_filter (column : string)
    (cols : list (string * list PyVal)) c :
  c ∈ filter (λ c, c.1 = column) cols → column ∈ cols.*1.
Proof.
  intros [<- Hin]%list_elem_of_filter. by apply list_elem_of_fmap_2.
Qed.

(** What [impute_outliers] computes once the predicate has answered with
    a mask: the assignment at the labels of the outliers. *)
Lemma impute_outliers_by_label df column constant f obj mask :
  getitem df column = Ok obj →
  f obj = Ok (Mask mask) →
  mask = [] ∨ length mask = length (df_index df) →
  impute_outliers df column constant f
    = (cols ← setitem_columns
                ((λ l, bool_decide (l ∈ select mask (df_index df))) <$> df_index df)
                column constant (df_columns df);
       Ok {| df_index := df_index df; df_columns := cols |}).
Proof.
  intros Hget Hf Hlen. pose proof (getitem_index _ _ _ Hget) as Hidx.
  unfold impute_outliers, copy. rewrite Hget. simpl.
  rewrite (loc_callable_Mask obj f mask) by (by rewrite ?Hidx). simpl.
  rewrite selection_index_rows, Hidx.
  unfold loc_setitem. rewrite labels_found_select.
  rewrite decide_True; [done|].
  unfold getitem in Hget. unfold column_names.
  destruct (filter (λ c, c.1 = column) (df_columns df)) as [|c cols] eqn:Hfilter;
    [done|].
  apply (column_names_elem_of_filter column _ c). rewrite Hfilter. left.
Qed.

(** With a constant the column holds, [impute_outliers] writes it at the
    rows that carry the label of an outlier and changes nothing else. *)
Lemma impute_outliers_holds df column constant f s mask :
  getitem df column = Ok (OneColumn s) →
  f (OneColumn s) = Ok (Mask mask) →
  mask = [] ∨ length mask = length (df_index df) →
  holds (s_values s) constant = true →
  impute_outliers df column constant f
    = Ok (replace_rows
            ((λ l, bool_decide (l ∈ select mask (df_index df))) <$> df_index df)
            column constant df).
Proof.
  intros Hget Hf Hlen Hholds.
  rewrite (impute_outliers_by_label df column constant f _ mask Hget Hf Hlen).
  apply getitem_OneColumn in Hget as (_ & _ & Hfilter).
  rewrite setitem_columns_holds; [done|].
  apply Forall_forall. intros c Hc Hname.
  assert (Hin : c ∈ filter (λ c, c.1 = column) (df_columns df))
    by (by apply list_elem_of_filter).
  rewrite Hfilter in Hin. apply list_elem_of_singleton in Hin. by rewrite Hin.
Qed.

(** C4, evaluated at a frame with a repeated index label. The predicate
    holds in the first row only, and the claim asks for the constant in
    the first row and the old value, 30, in the second; [impute_outliers]
    writes the constant into both rows, because the second row carries the
    label of the first. On the same rows under distinct labels it writes
    the constant into the first row only. *)
Theorem impute_outliers_repeated_label :
  over_100 (OneColumn (mkSeries [LabelInt 0; LabelInt 0] [PyInt 200; PyInt 30]))
  = Ok (Mask [true; false])
  ∧ replace_rows [true; false] "age" (PyInt 50) people_same_label
    = {| df_index := [LabelInt 0; LabelInt 0];
         df_columns := [("age", [PyInt 50; PyInt 30]);
                        ("name", [PyStr "ann"; PyStr "bob"])] |}
  ∧ impute_outliers people_same_label "age" (PyInt 50) over_100
    = Ok {| df_index := [LabelInt 0; LabelInt 0];
            df_columns := [("age", [PyInt 50; PyInt 50]);
                           ("name", [PyStr "ann"; PyStr "bob"])] |}
  ∧ impute_outliers people "age" (PyInt 50) over_100
    = Ok {| df_index := [LabelInt 0; LabelInt 1];
            df_columns := [("age", [PyInt 50; PyInt 30]);
                           ("name", [PyStr "ann"; PyStr "bob"])] |}.
Proof. repeat split; reflexivity. Qed.


(** ** The error monad *)

Lemma bind_Ok {A B} (a : A) (k : A → result B) : Ok a ≫= k = k a.
Proof. reflexivity. Qed.

Lemma bind_Raise {A B} (e : PyException) (k : A → result B) :
  (Raise e : result A) ≫= k = Raise e.
Proof. reflexivity. Qed.

Lemma for_each_result_cons {A B} (body : A → B → result A) acc x l :
  for_each_result body acc (x :: l)
  = body acc x ≫= λ acc', for_each_result body acc' l.
Proof. reflexivity. Qed.

(** ** The report *)

Section report.
Variable singleton : Singleton.
Local Abbreviation results := (labels_to_extracted_plan_results singleton).

Lemma append_metric_present label name metrics v :
  results !! label = Some v →
  append_metric singleton label name metrics
  = Ok (dict_set name (dict_get metrics name [] ++ [v]) metrics).
Proof. intros H. unfold append_metric, results_getitem. by rewrite H. Qed.

Lemma append_metric_missing label name metrics :
  results !! label = None →
  append_metric singleton label name metrics = Raise (MissingExtractedResult label).
Proof. intros H. unfold append_metric, results_getitem. by rewrite H. Qed.

(** One pass over the score entries: either every label is there and the
    pass succeeds, or it stops with the [KeyError] of a missing label. *)
Lemma metric_pass_cases {E} (label_of name_of : E → string) entries metrics :
  let pass :=
    for_each_result
      (λ metrics entry,
         append_metric singleton (label_of entry) (name_of entry) metrics)
      metrics entries in
  (Forall (λ entry, is_Some (results !! label_of entry)) entries
   ∧ ∃ metrics', pass = Ok metrics')
  ∨ (∃ entry, entry ∈ entries ∧ results !! label_of entry = None
       ∧ pass = Raise (MissingExtractedResult (label_of entry))).
Proof.
  revert metrics. induction entries as [|entry entries IH]; intros metrics; simpl.
  { left. eauto. }
  destruct (results !! label_of entry) as [v|] eqn:Hv.
  - rewrite (append_metric_present _ _ _ v Hv). simpl.
    destruct (IH (dict_set (name_of entry)
                    (dict_get metrics (name_of entry) [] ++ [v]) metrics))
      as [[Hall Hok]|(e & He & Hnone & Hraise)].
    + left. split; [constructor; eauto|done].
    + right. exists e. split; [by right|done].
  - right. exists entry. split; [by left|]. split; [done|].
    by rewrite append_metric_missing.
Qed.


Lemma report_row_member entries column e method acc :
  report_row singleton entries column (Member e) acc (Member method)
  = for_each_result
      (λ metrics (entry : option string * option Z),
         append_metric singleton
           (at_line (cleaning_label column (Clean_value method)) entry.2)
           (at_line (format_description entry.1) entry.2) metrics)
      (result_df_metrics acc) entries
    ≫= λ metrics,
      Ok {| result_df_columns := result_df_columns acc ++ [PyStr column];
            result_df_errors := result_df_errors acc ++ [PyStr (ErrorType_value e)];
            result_df_cleaning_methods :=
              result_df_cleaning_methods acc ++ [PyStr (Clean_value method)];
            result_df_metrics := metrics |}.
Proof. reflexivity. Qed.

(** The rows of the cleaning methods: either every label of every method
    is there and the loop succeeds, or it stops with the [KeyError] of a
    missing label. *)
Lemma report_rows_cases entries column e methods acc :
  let loop :=
    for_each_result (report_row singleton entries column (Member e))
      acc (Member <$> methods) in
  (Forall (λ method,
      Forall (λ entry : option string * option Z,
         is_Some (results !! at_line (cleaning_label column (Clean_value method)) entry.2))
        entries) methods
   ∧ ∃ acc', loop = Ok acc')
  ∨ (∃ method entry, method ∈ methods ∧ entry ∈ entries
       ∧ results !! at_line (cleaning_label column (Clean_value method)) entry.2 = None
       ∧ loop = Raise (MissingExtractedResult
                         (at_line (cleaning_label column (Clean_value method)) entry.2))).
Proof.
  revert acc. induction methods as [|method methods IH]; intros acc.
  { left. simpl. eauto. }
  rewrite fmap_cons, for_each_result_cons, report_row_member.
  destruct (metric_pass_cases
              (λ entry : option string * option Z,
                 at_line (cleaning_label column (Clean_value method)) entry.2)
              (λ entry, at_line (format_description entry.1) entry.2)
              entries (result_df_metrics acc))
    as [[Hall [metrics' Hok]]|(entry & He & Hnone & Hraise)].
  - rewrite Hok, !bind_Ok.
    match goal with |- context [for_each_result _ ?a _] =>
      destruct (IH a) as [[Hrest Hok']|(m & en & Hm & Hen & Hnone & Hraise)] end.
    + left. split; [by constructor|done].
    + right. exists m, en. split; [by right|done].
  - right. exists method, entry. split; [by left|]. split; [done|]. split; [done|].
    by rewrite Hraise.
Qed.

End report.

Lemma elem_of_required_labels label column methods scores :
  label ∈ required_labels column methods scores ↔
  (∃ entry, entry ∈ scores ∧ label = at_line "original" entry.2)
  ∨ (∃ method entry, method ∈ methods ∧ entry ∈ scores
       ∧ label = at_line (cleaning_label column (Clean_value method)) entry.2).
Proof.
  unfold required_labels. rewrite elem_of_app, list_elem_of_bind.
  setoid_rewrite list_elem_of_fmap. setoid_rewrite list_elem_of_fmap.
  split.
  - intros [(ln & -> & entry & -> & He)|(m & (ln & -> & entry & -> & He) & Hm)]; eauto 10.
  - intros [(entry & He & ->)|(m & entry & Hm & He & ->)]; [left|right]; eauto 10.
Qed.

(** C8. For a spec whose error kind and cleanings are members of their
    enumerations: if a label the report needs is absent from the results
    mapping, [generate_final_report] raises the [KeyError] of a needed,
    absent label; it returns no table and substitutes no value. *)
Theorem missing_label_fails self singleton extracted_plan_results e methods label :
  error self = Member e →
  cleanings self = Member <$> methods →
  label ∈ required_labels (column self) methods (_score_nodes_and_linenos self) →
  labels_to_extracted_plan_results singleton !! label = None →
  ∃ missing,
    missing ∈ required_labels (column self) methods (_score_nodes_and_linenos self)
    ∧ labels_to_extracted_plan_results singleton !! missing = None
    ∧ generate_final_report self singleton extracted_plan_results
      = Raise (MissingExtractedResult missing).
Proof.
  intros Herr Hcl Hreq Hnone. unfold generate_final_report.
  rewrite Herr, Hcl.
  set (entries := (λ entry : DagNode * option Z,
                     (description (details entry.1), entry.2))
                  <$> _score_nodes_and_linenos self).
  assert (Hentries : ∀ entry, entry ∈ entries →
            ∃ score, score ∈ _score_nodes_and_linenos self ∧ score.2 = entry.2).
  { intros entry (score & -> & Hs)%list_elem_of_fmap. eauto. }
  assert (Hscores : ∀ score, score ∈ _score_nodes_and_linenos self →
            ∃ entry, entry ∈ entries ∧ score.2 = entry.2).
  { intros score Hs. exists (description (details score.1), score.2).
    split; [|done]. apply list_elem_of_fmap. eauto. }
  destruct (metric_pass_cases singleton
              (λ entry : option string * option Z, at_line "original" entry.2)
              (λ entry, at_line (format_description entry.1) entry.2) entries [])
    as [[Hbase [metrics Hok]]|(entry & He & Hmiss & Hraise)].
  - rewrite Hok. simpl.
    match goal with |- context [for_each_result _ ?a (Member <$> methods)] =>
      destruct (report_rows_cases singleton entries (column self) e methods a)
        as [[Hrows [acc' Hok']]|(m & en & Hm & Hen & Hmiss & Hraise)] end.
    + exfalso. apply elem_of_required_labels in Hreq.
      destruct Hreq as [(score & Hs & ->)|(m & score & Hm & Hs & ->)];
        destruct (Hscores _ Hs) as (entry & He & Heq); rewrite Heq in Hnone.
      * rewrite Forall_forall in Hbase. destruct (Hbase _ He) as [v Hv]. congruence.
      * rewrite Forall_forall in Hrows. specialize (Hrows _ Hm).
        rewrite Forall_forall in Hrows. destruct (Hrows _ He) as [v Hv]. congruence.
    + eexists. split; [|split; [exact Hmiss|]].
      * apply elem_of_required_labels. right.
        destruct (Hentries _ Hen) as (score & Hs & Heq). exists m, score.
        by rewrite Heq.
      * by rewrite Hraise.
  - eexists. split; [|split; [exact Hmiss|]].
    + apply elem_of_required_labels. left.
      destruct (Hentries _ He) as (score & Hs & Heq). exists score. by rewrite Heq.
    + by rewrite Hraise.
Qed.

Lemma missing_label_fails_witness :
  ∃ missing,
    missing ∈ required_labels "age" [FILTER; IMPUTE] [(accuracy_node, Some 42%Z)]
    ∧ results_without_impute !! missing = None
    ∧ generate_final_report example_analysis_with_scores
        (mkSingleton 100 7 results_without_impute) results_without_impute
      = Raise (MissingExtractedResult missing).
Proof.
  apply (missing_label_fails example_analysis_with_scores
           (mkSingleton 100 7 results_without_impute) results_without_impute
           OUTLIER [FILTER; IMPUTE] "data-cleaning-age-impute_L42");
    [reflexivity | reflexivity | compute_done | reflexivity].
Defined.

(** The report of one score node described "accuracy" at line 42, for the
    column "age" cleaned by filter and by impute. *)
Lemma accuracy_report self score_node singleton extracted_plan_results :
  _score_nodes_and_linenos self = [(score_node, Some 42%Z)] →
  description (details score_node) = Some "accuracy" →
  column self = "age" →
  error self = Member OUTLIER →
  cleanings self = [Member FILTER; Member IMPUTE] →
  labels_to_extracted_plan_results singleton = example_results →
  ∃ report,
    generate_final_report self singleton extracted_plan_results = Ok report
    ∧ column_names report
      = ["corrupted_column"; "error"; "cleaning_method"; "accuracy_L42"]
    ∧ rows report
      = [[PyNone; PyNone; PyNone; PyFloat 0.80];
         [PyStr "age"; PyStr "outliers"; PyStr "filter"; PyFloat 0.83];
         [PyStr "age"; PyStr "outliers"; PyStr "impute"; PyFloat 0.81]].
Proof.
  intros Hself Hdesc Hcol Herr Hcl Hres.
  unfold generate_final_report, report_row, append_metric.
  rewrite Hself, Hcol, Herr, Hcl, Hres. simpl.
  rewrite Hdesc. vm_compute. eauto.
Qed.

(** C1. For a graph whose only SCORE node is described "accuracy" at line
    42, an analysis of column "age" with cleanings [FILTER, IMPUTE] that
    has recorded the score nodes of that graph, and the three results of
    the example in the results mapping, the report has the columns
    corrupted_column, error, cleaning_method, accuracy_L42 and exactly the
    three rows of the baseline, of filter and of impute, in that order. *)
Theorem report_end_to_end dag self score_node singleton extracted_plan_results :
  find_nodes_by_type dag SCORE = [score_node] →
  description (details score_node) = Some "accuracy" →
  lineno (code_location score_node) = Some 42%Z →
  _score_nodes_and_linenos self = recorded_scores dag →
  column self = "age" →
  error self = Member OUTLIER →
  cleanings self = [Member FILTER; Member IMPUTE] →
  labels_to_extracted_plan_results singleton = example_results →
  ∃ report,
    generate_final_report self singleton extracted_plan_results = Ok report
    ∧ column_names report
      = ["corrupted_column"; "error"; "cleaning_method"; "accuracy_L42"]
    ∧ rows report
      = [[PyNone; PyNone; PyNone; PyFloat 0.80];
         [PyStr "age"; PyStr "outliers"; PyStr "filter"; PyFloat 0.83];
         [PyStr "age"; PyStr "outliers"; PyStr "impute"; PyFloat 0.81]].
Proof.
  intros Hscore Hdesc Hline Hself. apply accuracy_report with score_node; [|done].
  rewrite Hself. unfold recorded_scores. rewrite Hscore. simpl. by rewrite Hline.
Qed.

Lemma report_end_to_end_witness :
  ∃ report,
    generate_final_report example_analysis_with_scores example_singleton ∅ = Ok report
    ∧ column_names report
      = ["corrupted_column"; "error"; "cleaning_method"; "accuracy_L42"]
    ∧ rows report
      = [[PyNone; PyNone; PyNone; PyFloat 0.80];
         [PyStr "age"; PyStr "outliers"; PyStr "filter"; PyFloat 0.83];
         [PyStr "age"; PyStr "outliers"; PyStr "impute"; PyFloat 0.81]].
Proof.
  apply (report_end_to_end example_dag example_analysis_with_scores accuracy_node
           example_singleton ∅); reflexivity.
Defined.

(** C10. The report does not depend on the argument
    [extracted_plan_results]: with the same object and singleton, any two
    arguments give the same result. The values come from the mapping of
    the singleton: with the results there and an empty argument the
    report is built, with the results in the argument and an empty
    singleton mapping the first lookup fails. *)
Theorem report_ignores_its_argument :
  (∀ self singleton (results1 results2 : gmap string PyVal),
     generate_final_report self singleton results1
     = generate_final_report self singleton results2)
  ∧ is_Ok (generate_final_report example_analysis_with_scores
             (mkSingleton 100 7 example_results) ∅) = true
  ∧ generate_final_report example_analysis_with_scores
      (mkSingleton 100 7 ∅) example_results
    = Raise (MissingExtractedResult "original_L42").
Proof. split; [reflexivity|]. split; vm_compute; reflexivity. Qed.


(** ** Plan generation *)

Lemma bind_M_run {A B} (m : M A) (k : A → M B) st :
  (m ≫= k) st
  = match m st with
    | (Ok a, st') => k a st'
    | (Raise e, st') => (Raise e, st')
    end.
Proof. reflexivity. Qed.

Lemma issued_0 st : issued 0 0 st = st.
Proof.
  destruct st as [this [n p m]]. unfold issued. simpl. by rewrite !Z.add_0_r.
Qed.

Lemma issued_issued a b c d st : issued c d (issued a b st) = issued (a + c) (b + d) st.
Proof. unfold issued. simpl. by rewrite !Z.add_assoc. Qed.

Section plans.

Variable get_columns_used_as_feature : DiGraph → list string.

Local Abbreviation generate_plans := (generate_plans_to_try get_columns_used_as_feature).
Local Abbreviation loop_body dag :=
  (λ cleaning_patch_sets cleaning,
     patches_for_variant ← patches_for_cleaning get_columns_used_as_feature dag cleaning;
     mret (cleaning_patch_sets ++ [patches_for_variant])).

Lemma extraction_run analysis prefix scores st :
  get_intermediate_extraction_patch_after_score_nodes analysis prefix scores st
  = (Ok (extraction_patches analysis prefix scores (next_patch_id (singleton st))),
     issued 0 (Z.of_nat (length scores)) st).
Proof.
  revert st. induction scores as [|[node line] scores IH]; intros st.
  - simpl. unfold mret, M_ret, extraction_patches. simpl. by rewrite issued_0.
  - cbn [get_intermediate_extraction_patch_after_score_nodes].
    rewrite bind_M_run. unfold get_next_patch_id at 1. rewrite bind_M_run, IH.
    unfold mret, M_ret, extraction_patches, issued. simpl.
    f_equal; [f_equal; f_equal|].
    + by rewrite Z.add_0_r.
    + apply imap_ext. intros j entry _. simpl. f_equal. lia.
    + f_equal. f_equal; lia.
Qed.

Lemma body_run dag method st :
  patches_for_cleaning get_columns_used_as_feature dag (Member method) st
  = (Ok (built_variant get_columns_used_as_feature (self st) dag method
           (next_op_id (singleton st)) (next_patch_id (singleton st))),
     issued 1 (Z.of_nat (length (_score_nodes_and_linenos (self st))) + 1) st).
Proof.
  unfold patches_for_cleaning. rewrite bind_M_run. unfold get_self at 1.
  destruct method; rewrite bind_M_run, extraction_run;
    unfold built_variant, issued, get_next_op_id, get_next_patch_id, mret, M_ret,
      mbind, M_bind;
    simpl; by rewrite ?Z.add_0_r, ?Z.add_assoc.
Qed.

Lemma for_each_cons {A B} (body : A → B → M A) acc x l st :
  for_each body acc (x :: l) st
  = match body acc x st with
    | (Ok acc', st') => for_each body acc' l st'
    | (Raise e, st') => (Raise e, st')
    end.
Proof. reflexivity. Qed.

Lemma loop_run dag methods acc st :
  for_each (loop_body dag) acc (Member <$> methods) st
  = (Ok (acc ++ built_variants get_columns_used_as_feature (self st) dag methods
                  (next_op_id (singleton st)) (next_patch_id (singleton st))),
     issued (Z.of_nat (length methods))
       (Z.of_nat (length methods)
        * (Z.of_nat (length (_score_nodes_and_linenos (self st))) + 1)) st).
Proof.
  revert acc st. induction methods as [|method methods IH]; intros acc st.
  - simpl. unfold mret, M_ret, built_variants. simpl.
    by rewrite app_nil_r, issued_0.
  - rewrite fmap_cons, for_each_cons, bind_M_run, body_run.
    unfold mret at 1, M_ret at 1. rewrite IH, issued_issued.
    unfold built_variants. simpl. rewrite <- app_assoc. simpl.
    f_equal; [f_equal; f_equal; f_equal|f_equal; lia].
    + f_equal; lia.
    + apply imap_ext. intros i m _. simpl. f_equal; lia.
Qed.

Lemma distinct_count_NoDup scores :
  NoDup (score_key <$> scores) → distinct_count scores = length scores.
Proof.
  intros H. unfold distinct_count. rewrite size_list_to_set by done.
  by rewrite length_fmap.
Qed.

(** A run on a graph and a spec that pass the three checks. *)
Lemma plans_closed_form dag st methods :
  length (find_nodes_by_type dag PREDICT) = 1%nat →
  NoDup (score_key <$> recorded_scores dag) →
  error (self st) = Member OUTLIER →
  cleanings (self st) = Member <$> methods →
  generate_plans dag st
  = (Ok (built_variants get_columns_used_as_feature
           (self (recorded (recorded_scores dag) st)) dag methods
           (next_op_id (singleton st)) (next_patch_id (singleton st))),
     issued (Z.of_nat (length methods))
       (Z.of_nat (length methods) * (Z.of_nat (length (recorded_scores dag)) + 1))
       (recorded (recorded_scores dag) st)).
Proof.
  intros Hpredict Hscores Herror Hcleanings. unfold generate_plans_to_try.
  rewrite decide_False by (intros H; by apply H).
  rewrite bind_M_run. fold (recorded_scores dag).
  unfold set_score_nodes_and_linenos at 1. rewrite bind_M_run.
  unfold get_self at 1. cbn [self _score_nodes_and_linenos error cleanings].
  rewrite decide_False by (intros H; apply H; by rewrite distinct_count_NoDup).
  rewrite decide_False by (intros H; by apply H).
  rewrite Hcleanings, loop_run.
  unfold recorded, set_score_nodes_and_linenos. cbn [snd]. by rewrite Hcleanings.
Qed.

Lemma members_of (l : list (EnumArg Clean)) :
  Forall (λ cleaning, cleaning ∈ [Member FILTER; Member IMPUTE]) l →
  ∃ methods, l = Member <$> methods.
Proof.
  induction 1 as [|cleaning l Hc _ [methods ->]]; [by exists []|].
  apply elem_of_cons in Hc as [->|Hc]; [by exists (FILTER :: methods)|].
  apply elem_of_cons in Hc as [->|Hc]; [by exists (IMPUTE :: methods)|].
  by apply elem_of_nil in Hc.
Qed.

Lemma extraction_patches_extract analysis prefix scores first_patch_id :
  Forall2 (extracts analysis prefix) scores
    (extraction_patches analysis prefix scores first_patch_id).
Proof.
  apply Forall2_same_length_lookup_2.
  - unfold extraction_patches. by rewrite length_imap.
  - intros j entry patch Hentry. unfold extraction_patches.
    rewrite list_lookup_imap, Hentry. intros [= <-]. by eexists.
Qed.

Lemma built_variants_lookup this dag methods op_id patch_id i method :
  methods !! i = Some method →
  built_variants get_columns_used_as_feature this dag methods op_id patch_id !! i
  = Some (built_variant get_columns_used_as_feature this dag method
            (op_id + Z.of_nat i)
            (patch_id
             + Z.of_nat i * (Z.of_nat (length (_score_nodes_and_linenos this)) + 1))).
Proof. intros H. unfold built_variants. by rewrite list_lookup_imap, H. Qed.

Lemma lookup_member (methods : list Clean) i method :
  (Member <$> methods) !! i = Some (Member method) → methods !! i = Some method.
Proof.
  rewrite list_lookup_fmap. destruct (methods !! i); intros H; by simplify_eq/=.
Qed.

(** C2. For a graph with exactly one PREDICT node and SCORE nodes uniquely
    keyed by (node, line), and a spec with error kind OUTLIER whose
    cleanings all lie in FILTER and IMPUTE, [generate_plans_to_try] returns
    as many variants as there are cleanings, in their order, and variant
    [i] is the extraction patches of the score nodes, labelled for method
    [i], followed by the one intervention patch of that method. *)
Theorem one_variant_per_cleaning dag st :
  length (find_nodes_by_type dag PREDICT) = 1%nat →
  NoDup (score_key <$> recorded_scores dag) →
  error (self st) = Member OUTLIER →
  Forall (λ cleaning, cleaning ∈ [Member FILTER; Member IMPUTE]) (cleanings (self st)) →
  ∃ variants st',
    generate_plans dag st = (Ok variants, st')
    ∧ length variants = length (cleanings (self st))
    ∧ ∀ i method, cleanings (self st) !! i = Some (Member method) →
        ∃ extraction intervention,
          variants !! i = Some (extraction ++ [intervention])
          ∧ Forall2
              (extracts (analysis_id (self st))
                 (cleaning_label (column (self st)) (Clean_value method)))
              (recorded_scores dag) extraction
          ∧ patch_method intervention = Some method.
Proof.
  intros Hpredict Hscores Herror [methods Hcl]%members_of.
  eexists _, _. split; [by apply plans_closed_form|]. split.
  - unfold built_variants. by rewrite length_imap, Hcl, length_fmap.
  - intros i method Hi. rewrite Hcl in Hi. apply lookup_member in Hi.
    eexists _, _. split; [by apply built_variants_lookup|].
    split; [apply extraction_patches_extract|by destruct method].
Qed.

(** C5. In a run that passes the checks, the required columns of the
    [DataFiltering] patch of every FILTER cleaning are, as a set, the
    feature columns of the graph if the target column is one of them, and
    are exactly the target column otherwise; so they are the feature
    columns if and only if the target column is a feature column. *)
Theorem filter_required_columns dag st :
  length (find_nodes_by_type dag PREDICT) = 1%nat →
  NoDup (score_key <$> recorded_scores dag) →
  error (self st) = Member OUTLIER →
  Forall (λ cleaning, cleaning ∈ [Member FILTER; Member IMPUTE]) (cleanings (self st)) →
  ∃ variants st',
    generate_plans dag st = (Ok variants, st')
    ∧ ∀ i, cleanings (self st) !! i = Some (Member FILTER) →
        ∃ extraction patch_id analysis training node evaluation required_cols,
          variants !! i
          = Some (extraction
                  ++ [DataFiltering patch_id analysis training node evaluation
                        required_cols])
          ∧ let feature_cols : gset string :=
              list_to_set (get_columns_used_as_feature dag) in
            (column (self st) ∈ feature_cols → list_to_set required_cols = feature_cols)
            ∧ (column (self st) ∉ feature_cols → required_cols = [column (self st)])
            ∧ (list_to_set required_cols = feature_cols
               ↔ column (self st) ∈ feature_cols).
Proof.
  intros Hpredict Hscores Herror [methods Hcl]%members_of.
  eexists _, _. split; [by apply plans_closed_form|].
  intros i Hi. rewrite Hcl in Hi. apply lookup_member in Hi.
  rewrite (built_variants_lookup _ _ _ _ _ _ _ Hi).
  eexists _, _, _, _, _, _, _. split; [reflexivity|].
  cbn [recorded set_score_nodes_and_linenos snd self column].
  case_decide as Hin; (split; [|split; [|split]]); intros; try done.
  - apply list_to_set_elements_L.
  - apply list_to_set_elements_L.
  - exfalso. apply Hin.
    match goal with H : list_to_set _ = _ |- _ => rewrite <- H end.
    apply elem_of_list_to_set. by left.
Qed.

(** C6. In a run that passes the checks, the [DataProjection] patch of
    every IMPUTE cleaning declares the target column as the column
    written and the one-element list of the target column as the columns
    read. *)
Theorem impute_reads_and_writes_target dag st :
  length (find_nodes_by_type dag PREDICT) = 1%nat →
  NoDup (score_key <$> recorded_scores dag) →
  error (self st) = Member OUTLIER →
  Forall (λ cleaning, cleaning ∈ [Member FILTER; Member IMPUTE]) (cleanings (self st)) →
  ∃ variants st',
    generate_plans dag st = (Ok variants, st')
    ∧ ∀ i, cleanings (self st) !! i = Some (Member IMPUTE) →
        ∃ extraction patch_id analysis training node evaluation
          modifies_column only_reads_column index_selection_func,
          variants !! i
          = Some (extraction
                  ++ [DataProjection patch_id analysis training node evaluation
                        modifies_column only_reads_column index_selection_func])
          ∧ modifies_column = column (self st)
          ∧ only_reads_column = [column (self st)]
          ∧ length only_reads_column = 1%nat.
Proof.
  intros Hpredict Hscores Herror [methods Hcl]%members_of.
  eexists _, _. split; [by apply plans_closed_form|].
  intros i Hi. rewrite Hcl in Hi. apply lookup_member in Hi.
  rewrite (built_variants_lookup _ _ _ _ _ _ _ Hi).
  eexists _, _, _, _, _, _, _, _, _. split; [reflexivity|]. done.
Qed.

(** C7. On a graph whose number of PREDICT nodes is not 1,
    [generate_plans_to_try] raises the exception of the first check and
    returns no variant; the analysis object and the singleton are left as
    they were. *)
Theorem not_one_predict_fails dag st :
  length (find_nodes_by_type dag PREDICT) ≠ 1%nat →
  generate_plans dag st = (Raise MultiplePredictNodes, st).
Proof. intros H. unfold generate_plans_to_try. by rewrite decide_True. Qed.

(** The node of every intervention of a run that passes the checks: its
    id is the next free node id at its turn, below the counter the run
    leaves behind. *)
Lemma intervention_nodes dag st methods :
  length (find_nodes_by_type dag PREDICT) = 1%nat →
  NoDup (score_key <$> recorded_scores dag) →
  error (self st) = Member OUTLIER →
  cleanings (self st) = Member <$> methods →
  ∃ variants st',
    generate_plans dag st = (Ok variants, st')
    ∧ next_op_id (singleton st')
      = (next_op_id (singleton st) + Z.of_nat (length methods))%Z
    ∧ ∀ i method, methods !! i = Some method →
        ∃ extraction intervention node,
          variants !! i = Some (extraction ++ [intervention])
          ∧ patch_method intervention = Some method
          ∧ patch_node intervention = Some node
          ∧ node_id node = (next_op_id (singleton st) + Z.of_nat i)%Z
          ∧ caller_filename (code_location node)
            = match method with
              | FILTER => "Data Cleaning"
              | IMPUTE => "DataCorruption"
              end
          ∧ operator (operator_info node)
            = match method with
              | FILTER => SELECTION
              | IMPUTE => PROJECTION_MODIFY
              end
          ∧ description (details node)
            = Some ("Clean " +:+ column (self st) +:+ ": " +:+ Clean_value method)
          ∧ processing_func node
            = Some match method with
                   | FILTER =>
                       partial_drop_outliers (column (self st)) (outlier_func (self st))
                   | IMPUTE =>
                       partial_impute_outliers (column (self st))
                         (impute_constant (self st)) (outlier_func (self st))
                   end.
Proof.
  intros Hpredict Hscores Herror Hcl.
  eexists _, _. split; [by apply plans_closed_form|]. split; [done|].
  intros i method Hi.
  rewrite (built_variants_lookup _ _ _ _ _ _ _ Hi).
  destruct method; eexists _, _, _; (split; [reflexivity|]); done.
Qed.

(** Plan generation leaves the score nodes it found on the analysis
    object, whatever happens after the check of the PREDICT nodes. *)
Lemma loop_keeps_self dag cleanings acc st :
  self (for_each (loop_body dag) acc cleanings st).2 = self st.
Proof.
  revert acc st. induction cleanings as [|cleaning cleanings IH]; intros acc st; [done|].
  rewrite for_each_cons, bind_M_run. destruct cleaning as [method|value].
  - rewrite body_run. unfold mret at 1, M_ret at 1. by rewrite IH.
  - reflexivity.
Qed.

Lemma plans_record_scores dag st :
  length (find_nodes_by_type dag PREDICT) = 1%nat →
  self (generate_plans dag st).2 = self (recorded (recorded_scores dag) st).
Proof.
  intros Hpredict. unfold generate_plans_to_try.
  rewrite decide_False by (intros H; by apply H).
  rewrite bind_M_run. fold (recorded_scores dag).
  unfold set_score_nodes_and_linenos at 1. rewrite bind_M_run.
  unfold get_self at 1. repeat case_decide; try reflexivity.
  by rewrite loop_keeps_self.
Qed.

End plans.


(** ** The properties at the example pipeline *)

Lemma one_variant_per_cleaning_witness :
  ∃ variants st',
    generate_plans_to_try example_features example_dag
      (mkState example_analysis fresh_singleton) = (Ok variants, st')
    ∧ length variants = 2%nat.
Proof.
  destruct (one_variant_per_cleaning example_features example_dag
              (mkState example_analysis fresh_singleton))
    as (variants & st' & Hrun & Hlen & _);
    [reflexivity | compute_done | reflexivity | compute_done |].
  exists variants, st'. split; [exact Hrun | exact Hlen].
Defined.

Lemma filter_required_columns_witness :
  ∃ variants st' extraction patch_id analysis training node evaluation required_cols,
    generate_plans_to_try example_features example_dag
      (mkState example_analysis fresh_singleton) = (Ok variants, st')
    ∧ variants !! 0%nat
      = Some (extraction
              ++ [DataFiltering patch_id analysis training node evaluation
                    required_cols])
    ∧ list_to_set required_cols = ({[ "age"; "income" ]} : gset string).
Proof.
  destruct (filter_required_columns example_features example_dag
              (mkState example_analysis fresh_singleton))
    as (variants & st' & Hrun & Hfilter);
    [reflexivity | compute_done | reflexivity | compute_done |].
  destruct (Hfilter 0%nat eq_refl)
    as (extraction & patch_id & analysis & training & node & evaluation
        & required_cols & Hvariant & Hin & _).
  exists variants, st', extraction, patch_id, analysis, training, node, evaluation,
    required_cols.
  split; [exact Hrun|]. split; [exact Hvariant|].
  rewrite Hin; [reflexivity|]. compute_done.
Defined.

Lemma impute_reads_and_writes_target_witness :
  ∃ variants st' extraction patch_id analysis training node evaluation
    index_selection_func,
    generate_plans_to_try example_features example_dag
      (mkState example_analysis fresh_singleton) = (Ok variants, st')
    ∧ variants !! 1%nat
      = Some (extraction
              ++ [DataProjection patch_id analysis training node evaluation
                    "age" ["age"] index_selection_func]).
Proof.
  destruct (impute_reads_and_writes_target example_features example_dag
              (mkState example_analysis fresh_singleton))
    as (variants & st' & Hrun & Himpute);
    [reflexivity | compute_done | reflexivity | compute_done |].
  destruct (Himpute 1%nat eq_refl)
    as (extraction & patch_id & analysis & training & node & evaluation
        & modifies_column & only_reads_column & index_selection_func
        & Hvariant & -> & -> & _).
  exists variants, st', extraction, patch_id, analysis, training, node, evaluation,
    index_selection_func.
  split; [exact Hrun | exact Hvariant].
Defined.

Lemma not_one_predict_fails_witness :
  length (find_nodes_by_type two_predicts_dag PREDICT) = 2%nat
  ∧ generate_plans_to_try example_features two_predicts_dag
      (mkState example_analysis fresh_singleton)
    = (Raise MultiplePredictNodes, mkState example_analysis fresh_singleton).
Proof.
  split; [reflexivity|].
  apply (not_one_predict_fails example_features two_predicts_dag). compute_done.
Defined.

(** C9, evaluated at the example pipeline with cleanings [FILTER, IMPUTE]:
    both nodes carry an id from the counter, their operator kind, their
    description and their bound transform, and the node of FILTER carries
    the code location "Data Cleaning"; the node of IMPUTE carries the code
    location "DataCorruption" instead. *)
Theorem impute_node_location_tag :
  ∃ variants st' filter_variant filter_patch filter_node
    impute_variant impute_patch impute_node,
    generate_plans_to_try example_features example_dag
      (mkState example_analysis fresh_singleton) = (Ok variants, st')
    ∧ variants !! 0%nat = Some (filter_variant ++ [filter_patch])
    ∧ patch_method filter_patch = Some FILTER
    ∧ patch_node filter_patch = Some filter_node
    ∧ caller_filename (code_location filter_node) = "Data Cleaning"
    ∧ variants !! 1%nat = Some (impute_variant ++ [impute_patch])
    ∧ patch_method impute_patch = Some IMPUTE
    ∧ patch_node impute_patch = Some impute_node
    ∧ caller_filename (code_location impute_node) = "DataCorruption"
    ∧ caller_filename (code_location impute_node) ≠ "Data Cleaning"
    ∧ (next_op_id fresh_singleton ≤ node_id filter_node)%Z
    ∧ (node_id filter_node < node_id impute_node)%Z
    ∧ (node_id impute_node < next_op_id (singleton st'))%Z
    ∧ operator (operator_info impute_node) = PROJECTION_MODIFY
    ∧ description (details impute_node) = Some "Clean age: impute"
    ∧ processing_func impute_node
      = Some (partial_impute_outliers "age" (PyInt 50) over_100).
Proof.
  destruct (intervention_nodes example_features example_dag
              (mkState example_analysis fresh_singleton) [FILTER; IMPUTE])
    as (variants & st' & Hrun & Hnext & Hnodes);
    [reflexivity | compute_done | reflexivity | reflexivity |].
  destruct (Hnodes 0%nat FILTER eq_refl)
    as (fv & fp & fnode & Hfv & Hfm & Hfp & Hfid & Hftag & _).
  destruct (Hnodes 1%nat IMPUTE eq_refl)
    as (iv & ip & inode & Hiv & Him & Hip & Hid & Hitag & Hop & Hdesc & Hfunc).
  exists variants, st', fv, fp, fnode, iv, ip, inode.
  rewrite Hitag, Hfid, Hid, Hnext. simpl. repeat split; done.
Qed.

(** Plan generation followed by report construction: once the variants of
    the example spec were generated for a graph with one PREDICT node and
    the accuracy score at line 42, and the executor has stored the three
    results, the report is the table of the example. *)
Lemma plans_then_report features dag score_node st singleton extracted_plan_results :
  length (find_nodes_by_type dag PREDICT) = 1%nat →
  find_nodes_by_type dag SCORE = [score_node] →
  description (details score_node) = Some "accuracy" →
  lineno (code_location score_node) = Some 42%Z →
  column (self st) = "age" →
  error (self st) = Member OUTLIER →
  cleanings (self st) = [Member FILTER; Member IMPUTE] →
  labels_to_extracted_plan_results singleton = example_results →
  ∃ report,
    generate_final_report (self (generate_plans_to_try features dag st).2)
      singleton extracted_plan_results = Ok report
    ∧ column_names report
      = ["corrupted_column"; "error"; "cleaning_method"; "accuracy_L42"]
    ∧ rows report
      = [[PyNone; PyNone; PyNone; PyFloat 0.80];
         [PyStr "age"; PyStr "outliers"; PyStr "filter"; PyFloat 0.83];
         [PyStr "age"; PyStr "outliers"; PyStr "impute"; PyFloat 0.81]].
Proof.
  intros Hpredict Hscore Hdesc Hline Hcol Herr Hcl Hres.
  rewrite plans_record_scores by done.
  apply accuracy_report with score_node; try done.
  unfold recorded, recorded_scores. simpl. by rewrite Hscore, <- Hline.
Qed.

(** * Further properties of the transforms *)

Section select_more.
Context {A : Type}.
Implicit Types (mask : list bool) (l : list A).

Lemma elem_of_select mask l x :
  x ∈ select mask l ↔ ∃ j, mask !! j = Some true ∧ l !! j = Some x.
Proof.
  revert l. induction mask as [|b mask IH]; intros [|y l]; simpl.
  - split; [by intros ?%elem_of_nil|by intros (j & ? & ?)].
  - split; [by intros ?%elem_of_nil|by intros (j & ? & ?)].
  - split; [by intros ?%elem_of_nil|by intros (j & ? & ?)].
  - destruct b.
    + rewrite elem_of_cons, IH. split.
      * intros [->|(j & ? & ?)]; [by exists 0%nat|by exists (S j)].
      * intros ([|j] & ? & ?); simplify_eq/=; eauto.
    + rewrite IH. split.
      * intros (j & ? & ?). by exists (S j).
      * intros ([|j] & ? & ?); simplify_eq/=; eauto.
Qed.

Lemma select_sublist mask l : select mask l `sublist_of` l.
Proof.
  revert l. induction mask as [|b mask IH]; intros [|y l]; simpl;
    try apply sublist_nil_l.
  destruct b; [by apply sublist_skip|by apply sublist_cons].
Qed.

Lemma length_select_same {B} mask l (k : list B) :
  length l = length k → length (select mask l) = length (select mask k).
Proof.
  revert l k. induction mask as [|b mask IH]; intros [|y l] [|z k] Hlen;
    simplify_eq/=; try done.
  destruct b; simpl; auto.
Qed.

Lemma length_select_le {B} mask l (k : list B) :
  (length mask ≤ length k)%nat →
  (length (select mask l) ≤ length (select mask k))%nat.
Proof.
  revert l k. induction mask as [|b mask IH]; intros [|y l] [|z k] Hlen;
    simpl in *; try lia.
  all: first [specialize (IH l k) | specialize (IH [] k)]; destruct b; simpl; lia.
Qed.

(** What boolean indexing keeps satisfies whatever the mask guarantees. *)
Lemma Forall_select (P : A → Prop) mask l :
  (∀ j x, mask !! j = Some true → l !! j = Some x → P x) →
  Forall P (select mask l).
Proof.
  intros H. apply Forall_forall. intros x (j & ? & ?)%elem_of_select. eauto.
Qed.

End select_more.

Lemma column_lookup_None column cols :
  column_lookup column cols = None ↔ column ∉ cols.*1.
Proof.
  induction cols as [|[name values] cols IH]; simpl.
  - split; [intros _; apply not_elem_of_nil|done].
  - rewrite not_elem_of_cons. simpl. case_decide as Hn.
    + split; [done|]. intros [Hne _]. by destruct Hne.
    + rewrite IH. split; [intros ?; split; [congruence|done]|by intros [_ ?]].
Qed.

Lemma column_lookup_take_rows keep df column :
  column_lookup column (df_columns (take_rows keep df))
  = select keep <$> column_lookup column (df_columns df).
Proof.
  unfold take_rows. simpl.
  induction (df_columns df) as [|[name values] cols IH]; simpl; [done|].
  by case_decide.
Qed.

Lemma take_rows_all_le mask df :
  (length (df_index df) ≤ length mask)%nat →
  Forall (λ c, (length c.2 ≤ length mask)%nat) (df_columns df) →
  Forall (λ b, b = true) mask →
  take_rows mask df = df.
Proof.
  intros Hlen Hcols Hall. destruct df as [index cols]. unfold take_rows; simpl in *.
  f_equal; [by apply select_all|].
  induction Hcols as [|[name values] cols Hc _ IH]; simpl; [done|].
  f_equal; [|done]. f_equal. by apply select_all.
Qed.

Lemma filter_take_rows keep column (cols : list (string * list PyVal)) :
  filter (λ c, c.1 = column) ((λ c, (c.1, select keep c.2)) <$> cols)
  = (λ c, (c.1, select keep c.2)) <$> filter (λ c, c.1 = column) cols.
Proof.
  induction cols as [|[name values] cols IH]; [done|]. rewrite fmap_cons.
  destruct (decide (name = column)) as [Hn|Hn].
  - rewrite !filter_cons_True by done. by rewrite fmap_cons, IH.
  - by rewrite !filter_cons_False.
Qed.

Lemma getitem_take_rows keep df column s :
  getitem df column = Ok (OneColumn s) →
  getitem (take_rows keep df) column
  = Ok (OneColumn (mkSeries (select keep (df_index df)) (select keep (s_values s)))).
Proof.
  intros (_ & _ & Hfilter)%getitem_OneColumn.
  unfold getitem, take_rows. cbn [df_columns df_index].
  by rewrite filter_take_rows, Hfilter.
Qed.

(** What a successful call of either transform tells about its input. *)
Lemma drop_outliers_Ok df column f out :
  drop_outliers df column f = Ok out →
  ∃ obj mask,
    getitem df column = Ok obj
    ∧ f obj = Ok (Mask mask)
    ∧ (mask = [] ∨ length mask = length (df_index df))
    ∧ out = take_rows
              ((λ l, bool_decide (l ∉ select mask (df_index df))) <$> df_index df) df.
Proof.
  intros Hout. pose proof Hout as Hrun. unfold drop_outliers, copy in Hrun.
  destruct (getitem df column ≫= λ obj, loc_callable obj f) as [selected|e] eqn:Hsel;
    [|done].
  apply selection_Ok in Hsel as (obj & mask & Hget & Hf & Hlen & _).
  exists obj, mask. repeat (split; [done|]).
  rewrite (drop_outliers_by_label df column f obj mask) in Hout by done. congruence.
Qed.

Lemma impute_outliers_Ok df column constant f out :
  impute_outliers df column constant f = Ok out →
  ∃ obj mask cols,
    getitem df column = Ok obj
    ∧ f obj = Ok (Mask mask)
    ∧ (mask = [] ∨ length mask = length (df_index df))
    ∧ setitem_columns
        ((λ l, bool_decide (l ∈ select mask (df_index df))) <$> df_index df)
        column constant (df_columns df) = Ok cols
    ∧ out = {| df_index := df_index df; df_columns := cols |}.
Proof.
  intros Hout. pose proof Hout as Hrun. unfold impute_outliers, copy in Hrun.
  destruct (getitem df column ≫= λ obj, loc_callable obj f) as [selected|e] eqn:Hsel;
    [|done].
  apply selection_Ok in Hsel as (obj & mask & Hget & Hf & Hlen & _).
  rewrite (impute_outliers_by_label df column constant f obj mask) in Hout by done.
  destruct (setitem_columns _ column constant (df_columns df)) as [cols|e] eqn:Hcols;
    [|done].
  exists obj, mask, cols. repeat (split; [done|]). simpl in Hout. congruence.
Qed.

(** A cell-wise predicate answers with a mask only for a single column. *)
Lemma elementwise_Mask p obj mask :
  elementwise p obj = Ok (Mask mask) →
  ∃ s, obj = OneColumn s ∧ mask = p <$> s_values s.
Proof. destruct obj as [s|df]; intros [= <-]. by exists s. Qed.

(** X1. A column the frame does not have makes both transforms raise the
    [KeyError] of that column; a non-empty list of booleans that has not
    one entry per row makes both raise the [IndexError] that names the two
    lengths; and what the predicate raises, both transforms raise. *)
Theorem transforms_errors df column constant f :
  (column ∉ column_names df →
     drop_outliers df column f = Raise (KeyError column)
     ∧ impute_outliers df column constant f = Raise (KeyError column))
  ∧ (∀ obj mask, getitem df column = Ok obj →
       f obj = Ok (Mask mask) →
       mask ≠ [] →
       length mask ≠ length (df_index df) →
       let e := IndexError ("Boolean index has wrong length: "
                            +:+ pretty (length mask) +:+ " instead of "
                            +:+ pretty (length (df_index df))) in
       drop_outliers df column f = Raise e
       ∧ impute_outliers df column constant f = Raise e)
  ∧ (∀ obj e, getitem df column = Ok obj →
       f obj = Raise e →
       drop_outliers df column f = Raise e
       ∧ impute_outliers df column constant f = Raise e).
Proof.
  split; [|split].
  - intros Hc. unfold drop_outliers, impute_outliers, copy, getitem.
    destruct (filter (λ c, c.1 = column) (df_columns df)) as [|c cols] eqn:Hfilter;
      [done|].
    exfalso. apply Hc. apply (column_names_elem_of_filter column _ c).
    rewrite Hfilter. left.
  - intros obj mask Hget Hf Hne Hlen e.
    pose proof (getitem_index _ _ _ Hget) as Hidx.
    unfold drop_outliers, impute_outliers, copy. rewrite Hget. simpl.
    unfold loc_callable. rewrite Hf. simpl. rewrite Hidx.
    rewrite decide_False by (by intros [?|?]). done.
  - intros obj e Hget Hf.
    unfold drop_outliers, impute_outliers, copy. rewrite Hget. simpl.
    unfold loc_callable. by rewrite Hf.
Qed.

Lemma transforms_errors_witness :
  drop_outliers people "height" over_100 = Raise (KeyError "height")
  ∧ impute_outliers people "height" (PyInt 50) over_100 = Raise (KeyError "height")
  ∧ drop_outliers people "age" (λ _, Ok (Mask [true]))
    = Raise (IndexError "Boolean index has wrong length: 1 instead of 2")
  ∧ impute_outliers people "name" (PyInt 50) over_100
    = Raise (TypeError "'>' not supported between instances of 'str' and 'int'").
Proof.
  destruct (transforms_errors people "height" (PyInt 50) over_100) as [Hkey _].
  destruct (transforms_errors people "age" (PyInt 50) (λ _, Ok (Mask [true])))
    as (_ & Hmask & _).
  destruct (transforms_errors people "name" (PyInt 50) over_100) as (_ & _ & Hraise).
  destruct Hkey as [Hdrop Himpute]; [compute_done|].
  destruct (Hmask (OneColumn (mkSeries (df_index people) [PyInt 200; PyInt 30]))
              [true] eq_refl eq_refl) as [Hdrop' _]; [done|compute_done|].
  destruct (Hraise (OneColumn (mkSeries (df_index people) [PyStr "ann"; PyStr "bob"]))
              _ eq_refl eq_refl) as [_ Himpute'].
  split; [exact Hdrop|]. split; [exact Himpute|]. split; [exact Hdrop' | exact Himpute'].
Defined.

(** X2. Both transforms select the outliers with the same expression, so
    whatever makes [drop_outliers] raise makes [impute_outliers] raise the
    same exception. An empty list as the answer of the predicate is no
    error: it selects no row, and [drop_outliers] returns a well-formed
    frame as it is. *)
Theorem transforms_fail_together df column constant f :
  (∀ e, drop_outliers df column f = Raise e →
     impute_outliers df column constant f = Raise e)
  ∧ (∀ obj, getitem df column = Ok obj →
       f obj = Ok (Mask []) →
       well_formed df →
       drop_outliers df column f = Ok df).
Proof.
  split.
  - intros e Hdrop. pose proof Hdrop as Hrun.
    unfold drop_outliers, copy in Hrun. unfold impute_outliers, copy.
    destruct (getitem df column ≫= λ obj, loc_callable obj f) as [selected|e'] eqn:Hsel.
    + apply selection_Ok in Hsel as (obj & mask & Hget & Hf & Hlen & _).
      by rewrite (drop_outliers_by_label df column f obj mask) in Hdrop.
    + simpl in Hrun. by simplify_eq.
  - intros obj Hget Hf Hwf.
    rewrite (drop_outliers_by_label df column f obj []) by (done || by left).
    f_equal. apply take_rows_all; [done|by rewrite length_fmap|].
    apply Forall_fmap, Forall_forall. intros l _.
    apply bool_decide_eq_true_2. simpl. destruct (df_index df); apply not_elem_of_nil.
Qed.

Lemma transforms_fail_together_witness :
  impute_outliers people "name" (PyInt 50) over_100
  = Raise (TypeError "'>' not supported between instances of 'str' and 'int'")
  ∧ drop_outliers people "age" (λ _, Ok (Mask [])) = Ok people.
Proof.
  destruct (transforms_fail_together people "name" (PyInt 50) over_100) as [Hfail _].
  destruct (transforms_fail_together people "age" (PyInt 50) (λ _, Ok (Mask [])))
    as [_ Hempty].
  split.
  - exact (Hfail _ eq_refl).
  - apply (Hempty (OneColumn (mkSeries (df_index people) [PyInt 200; PyInt 30]))
             eq_refl eq_refl).
    repeat constructor.
Defined.

Lemma kept_cells_pass (p : PyVal → bool) (index : list Label) (values : list PyVal) :
  Forall (λ v, p v = false)
    (select ((λ l, bool_decide (l ∉ select (p <$> values) index)) <$> index) values).
Proof.
  apply Forall_select. intros j v Hkeep Hv.
  rewrite list_lookup_fmap in Hkeep.
  destruct (index !! j) as [l|] eqn:Hl; simplify_eq/=.
  apply bool_decide_eq_true in Hkeep.
  destruct (p v) eqn:Hp; [|done]. exfalso. apply Hkeep.
  apply elem_of_select. exists j. by rewrite list_lookup_fmap, Hv, Hl; simpl; rewrite Hp.
Qed.

(** X3. Whatever the index looks like, the frame [drop_outliers] returns
    for a cell-wise predicate holds no outlier in the column. *)
Theorem drop_outliers_leaves_no_outlier df column p out :
  drop_outliers df column (elementwise p) = Ok out →
  ∃ values,
    column_lookup column (df_columns out) = Some values
    ∧ Forall (λ v, p v = false) values.
Proof.
  intros (obj & mask & Hget & (s & -> & ->)%elementwise_Mask & Hlen & ->)%drop_outliers_Ok.
  apply getitem_OneColumn in Hget as (_ & Hc & _).
  rewrite column_lookup_take_rows, Hc.
  eexists. split; [done|]. apply kept_cells_pass.
Qed.

Lemma drop_outliers_leaves_no_outlier_witness :
  ∃ values,
    column_lookup "age" [("age", [PyInt 30]); ("name", [PyStr "bob"])] = Some values
    ∧ Forall (λ v, match v with PyInt z => (100 <? z)%Z | _ => false end = false) values.
Proof.
  exact (drop_outliers_leaves_no_outlier people "age"
           (λ v, match v with PyInt z => (100 <? z)%Z | _ => false end)
           {| df_index := [LabelInt 1];
              df_columns := [("age", [PyInt 30]); ("name", [PyStr "bob"])] |} eq_refl).
Defined.

Lemma all_true_fmap {A} (l : list A) (f : A → bool) :
  (∀ x, x ∈ l → f x = true) → Forall (λ b, b = true) (f <$> l).
Proof. intros H. apply Forall_fmap, Forall_forall. intros x Hx. simpl. auto. Qed.

(** A frame whose column holds no outlier comes back unchanged, provided
    no column is longer than the index. *)
Lemma drop_outliers_clean df column (p : PyVal → bool) s :
  getitem df column = Ok (OneColumn s) →
  s_values s = [] ∨ length (s_values s) = length (df_index df) →
  Forall (λ v, p v = false) (s_values s) →
  Forall (λ c, (length c.2 ≤ length (df_index df))%nat) (df_columns df) →
  drop_outliers df column (elementwise p) = Ok df.
Proof.
  intros Hget Hlen Hclean Hcols.
  rewrite (drop_outliers_by_label df column _ (OneColumn s) (p <$> s_values s)).
  - f_equal. rewrite select_none by (by apply Forall_fmap).
    apply take_rows_all_le; rewrite ?length_fmap; [done|done|].
    apply all_true_fmap. intros l _. apply bool_decide_eq_true_2, not_elem_of_nil.
  - done.
  - done.
  - rewrite length_fmap. destruct Hlen as [->|?]; [by left|by right].
Qed.

(** X4. [drop_outliers] is idempotent for a cell-wise predicate: applied to
    its own result it changes nothing, repeated index labels or not. *)
Theorem drop_outliers_idempotent df column p out :
  drop_outliers df column (elementwise p) = Ok out →
  drop_outliers out column (elementwise p) = Ok out.
Proof.
  intros (obj & mask & Hget & (s & -> & ->)%elementwise_Mask & Hlen & ->)%drop_outliers_Ok.
  set (keep := (λ l, bool_decide (l ∉ select (p <$> s_values s) (df_index df)))
               <$> df_index df).
  assert (Hkeep : length keep = length (df_index df))
    by (unfold keep; by rewrite length_fmap).
  apply drop_outliers_clean
    with (mkSeries (select keep (df_index df)) (select keep (s_values s))).
  - by apply getitem_take_rows.
  - cbn [s_values take_rows df_index]. rewrite length_fmap in Hlen.
    destruct Hlen as [Hnil|Hlen].
    + left. apply fmap_nil_inv in Hnil. rewrite Hnil. by destruct keep.
    + right. by apply length_select_same.
  - apply kept_cells_pass.
  - cbn [take_rows df_index df_columns]. apply Forall_fmap, Forall_forall.
    intros c _. simpl. apply length_select_le. by rewrite Hkeep.
Qed.

Lemma drop_outliers_idempotent_witness :
  drop_outliers
    {| df_index := [LabelInt 1];
       df_columns := [("age", [PyInt 30]); ("name", [PyStr "bob"])] |} "age"
    (elementwise (λ v, match v with PyInt z => (100 <? z)%Z | _ => false end))
  = Ok {| df_index := [LabelInt 1];
          df_columns := [("age", [PyInt 30]); ("name", [PyStr "bob"])] |}.
Proof.
  exact (drop_outliers_idempotent people "age"
           (λ v, match v with PyInt z => (100 <? z)%Z | _ => false end)
           {| df_index := [LabelInt 1];
              df_columns := [("age", [PyInt 30]); ("name", [PyStr "bob"])] |} eq_refl).
Defined.

Lemma well_formed_take_rows keep df :
  well_formed df → well_formed (take_rows keep df).
Proof.
  unfold well_formed, take_rows. simpl. intros Hwf.
  apply Forall_fmap. eapply Forall_impl; [exact Hwf|].
  intros c Hc. simpl. by apply length_select_same.
Qed.

Lemma column_names_take_rows keep df :
  column_names (take_rows keep df) = column_names df.
Proof.
  unfold column_names, take_rows. simpl. rewrite <- list_fmap_compose.
  by apply list_fmap_ext.
Qed.

(** X5. [drop_outliers] only removes rows: its result has the same column
    names, an index that is a sublist of the input's, and one cell per row
    in every column if the input had. *)
Theorem drop_outliers_only_removes_rows df column f out :
  drop_outliers df column f = Ok out →
  column_names out = column_names df
  ∧ df_index out `sublist_of` df_index df
  ∧ (well_formed df → well_formed out).
Proof.
  intros (obj & mask & _ & _ & _ & ->)%drop_outliers_Ok.
  split; [apply column_names_take_rows|]. split.
  - apply select_sublist.
  - apply well_formed_take_rows.
Qed.

Lemma drop_outliers_only_removes_rows_witness :
  column_names
    {| df_index := [LabelInt 1];
       df_columns := [("age", [PyInt 30]); ("name", [PyStr "bob"])] |}
  = column_names people
  ∧ [LabelInt 1] `sublist_of` df_index people.
Proof.
  destruct (drop_outliers_only_removes_rows people "age" over_100
              {| df_index := [LabelInt 1];
                 df_columns := [("age", [PyInt 30]); ("name", [PyStr "bob"])] |}
              eq_refl) as (Hnames & Hsub & _).
  split; [exact Hnames | exact Hsub].
Defined.

Lemma setitem_cells_length hit value cells cells' :
  setitem_cells hit value cells = Ok cells' → length cells' = length cells.
Proof.
  unfold setitem_cells, setitem_integer. intros H.
  repeat (case_match; simplify_eq; rewrite ?length_assign, ?length_fmap; try done).
Qed.

Lemma setitem_columns_shape hit column value cols cols' :
  setitem_columns hit column value cols = Ok cols' →
  Forall2 (λ c c', c.1 = c'.1 ∧ length c.2 = length c'.2) cols cols'.
Proof.
  revert cols'. induction cols as [|[name cells] cols IH]; intros cols' H.
  - simpl in H. simplify_eq. constructor.
  - cbn [setitem_columns] in H.
    destruct (if decide (name = column) then setitem_cells hit value cells else Ok cells)
      as [cells'|] eqn:Hcells; [|done]. simpl in H.
    destruct (setitem_columns hit column value cols) as [rest|] eqn:Hrest; [|done].
    simpl in H. simplify_eq. constructor; [|by apply IH]. simpl. split; [done|].
    case_decide; [|by simplify_eq]. symmetry. by eapply setitem_cells_length.
Qed.

(** X6. [impute_outliers] keeps the shape of a well-formed frame: the
    result has one cell per row in every column. *)
Theorem impute_outliers_keeps_shape df column constant f out :
  well_formed df →
  impute_outliers df column constant f = Ok out →
  well_formed out ∧ length (df_index out) = length (df_index df).
Proof.
  intros Hwf (obj & mask & cols & _ & _ & _ & Hcols & ->)%impute_outliers_Ok.
  split; [|done]. unfold well_formed in *. cbn [df_columns df_index].
  apply setitem_columns_shape in Hcols.
  induction Hcols as [|c c' cols cols' [_ Hlen] _ IH]; [constructor|].
  apply Forall_cons in Hwf as [Hc Hwf]. constructor; [congruence|by apply IH].
Qed.

Lemma impute_outliers_keeps_shape_witness :
  well_formed
    {| df_index := [LabelInt 0; LabelInt 1];
       df_columns := [("age", [PyInt 50; PyInt 30]);
                      ("name", [PyStr "ann"; PyStr "bob"])] |}.
Proof.
  assert (Hwf : well_formed people) by (repeat constructor).
  exact (proj1 (impute_outliers_keeps_shape people "age" (PyInt 50) over_100
                  {| df_index := [LabelInt 0; LabelInt 1];
                     df_columns := [("age", [PyInt 50; PyInt 30]);
                                    ("name", [PyStr "ann"; PyStr "bob"])] |}
                  Hwf eq_refl)).
Defined.

Lemma filter_replace_rows hit column constant (cols : list (string * list PyVal)) :
  filter (λ c, c.1 = column)
    ((λ c, if decide (c.1 = column) then (c.1, assign hit constant c.2) else c) <$> cols)
  = (λ c, (c.1, assign hit constant c.2)) <$> filter (λ c, c.1 = column) cols.
Proof.
  induction cols as [|[name values] cols IH]; [done|]. rewrite fmap_cons. cbn [fst snd].
  destruct (decide (name = column)) as [Hn|Hn].
  - rewrite !filter_cons_True by done. by rewrite fmap_cons, IH.
  - by rewrite !filter_cons_False.
Qed.

Lemma getitem_replace_rows hit column constant df s :
  getitem df column = Ok (OneColumn s) →
  getitem (replace_rows hit column constant df) column
  = Ok (OneColumn (mkSeries (df_index df) (assign hit constant (s_values s)))).
Proof.
  intros (_ & _ & Hfilter)%getitem_OneColumn.
  unfold getitem, replace_rows. cbn [df_columns df_index].
  by rewrite filter_replace_rows, Hfilter.
Qed.

Lemma well_formed_replace_rows hit column constant df :
  well_formed df → well_formed (replace_rows hit column constant df).
Proof.
  unfold well_formed, replace_rows. simpl. intros Hwf.
  apply Forall_fmap. eapply Forall_impl; [exact Hwf|].
  intros c Hc. simpl in *. case_decide; [|done]. simpl. by rewrite length_assign.
Qed.

(** A cell of the imputed column is the constant, in a row that carries
    the label of an outlier, or it is no outlier. *)
Lemma imputed_cell (p : PyVal → bool) (index : list Label) (values : list PyVal)
    constant k v :
  assign ((λ l, bool_decide (l ∈ select (p <$> values) index)) <$> index)
    constant values !! k = Some v →
  index !! k = None ∨
  (∃ l, index !! k = Some l ∧ l ∈ select (p <$> values) index ∧ v = constant)
  ∨ p v = false.
Proof.
  rewrite assign_lookup, list_lookup_fmap.
  destruct (index !! k) as [l|] eqn:Hl; [|by left]. right. revert H. simpl.
  destruct (values !! k) as [v0|] eqn:Hv; [|done]. simpl.
  case_bool_decide as Hin; intros [= <-].
  - left. eauto.
  - right. destruct (p v0) eqn:Hp; [|done]. exfalso. apply Hin.
    apply elem_of_select. exists k. by rewrite list_lookup_fmap, Hv; simpl; rewrite Hp.
Qed.

Lemma assign_absorb hit' hit constant values :
  (∀ j, hit' !! j = Some true → hit !! j = Some true) →
  assign hit' constant (assign hit constant values) = assign hit constant values.
Proof.
  intros Hsub. apply list_eq. intros j. rewrite !assign_lookup.
  destruct (values !! j) as [v|]; simpl; [|done]. f_equal.
  destruct (hit' !! j) as [[]|] eqn:Hh'; simpl; [|done|done].
  by rewrite (Hsub j Hh').
Qed.

Lemma replace_rows_absorb hit' hit column constant df :
  (∀ j, hit' !! j = Some true → hit !! j = Some true) →
  replace_rows hit' column constant (replace_rows hit column constant df)
  = replace_rows hit column constant df.
Proof.
  intros Hsub. unfold replace_rows. simpl. f_equal.
  rewrite <- list_fmap_compose. apply list_fmap_ext. intros i [name values] _. simpl.
  destruct (decide (name = column)) as [->|Hne]; simpl.
  - rewrite decide_True by done. by rewrite assign_absorb.
  - by rewrite decide_False.
Qed.

(** Where all cells are of one kind after an assignment, they were before
    or the value is. *)
Lemma forallb_assign (q : PyVal → bool) hit value values :
  forallb q (assign hit value values) = true →
  forallb q values = true ∨ q value = true.
Proof.
  revert values. induction hit as [|h hit IH]; intros [|v values]; simpl; auto.
  intros [Hv Hrest]%andb_true_iff. destruct (IH _ Hrest) as [Hall|?]; [|by right].
  destruct h; [by right|]. left. by rewrite Hv, Hall.
Qed.

Lemma forallb_assign_2 (q : PyVal → bool) hit value values :
  forallb q values = true → q value = true →
  forallb q (assign hit value values) = true.
Proof.
  intros Hvalues Hvalue. revert values Hvalues.
  induction hit as [|h hit IH]; intros [|v values]; simpl; auto.
  intros [Hv Hrest]%andb_true_iff. rewrite IH by done. destruct h; by rewrite ?Hv, ?Hvalue.
Qed.

(** A column keeps holding a value that was assigned to it. *)
Lemma holds_assign hit value values :
  holds values value = true → holds (assign hit value values) value = true.
Proof.
  unfold holds, dtype_of. intros Hholds.
  assert (Hkind : ∀ q : PyVal → bool,
            forallb q values = false →
            forallb q (assign hit value values) = true → q value = true).
  { intros q Hq [?|?]%forallb_assign; [congruence|done]. }
  pose proof (λ q, forallb_assign_2 q hit value values) as Hkept.
  destruct (forallb is_int64 values) eqn:Hint.
  { destruct value; try done. by rewrite (Hkept is_int64). }
  destruct (forallb is_int64 (assign hit value values)) eqn:Hint'.
  { apply (Hkind is_int64 Hint) in Hint'. by destruct value. }
  destruct (forallb is_uint64 values) eqn:Huint.
  { destruct value; try done. by rewrite (Hkept is_uint64). }
  destruct (forallb is_uint64 (assign hit value values)) eqn:Huint'.
  { apply (Hkind is_uint64 Huint) in Huint'. by destruct value. }
  destruct (forallb is_float values) eqn:Hfloat.
  { destruct value; try done. by rewrite (Hkept is_float). }
  destruct (forallb is_float (assign hit value values)) eqn:Hfloat'.
  { apply (Hkind is_float Hfloat) in Hfloat'. by destruct value. }
  destruct (forallb is_bool values) eqn:Hbool.
  { destruct value; try done. by rewrite (Hkept is_bool). }
  destruct (forallb is_bool (assign hit value values)) eqn:Hbool'; [|done].
  apply (Hkind is_bool Hbool) in Hbool'. by destruct value.
Qed.

(** X7. With a constant the column holds, [impute_outliers] is idempotent
    for a cell-wise predicate: applied to its own result it changes
    nothing, whether or not the constant is itself an outlier and whether
    or not index labels repeat. *)
Theorem impute_outliers_idempotent df column constant p values out :
  column_lookup column (df_columns df) = Some values →
  holds values constant = true →
  impute_outliers df column constant (elementwise p) = Ok out →
  impute_outliers out column constant (elementwise p) = Ok out.
Proof.
  intros Hc Hholds Hout. pose proof Hout as Hrun.
  apply impute_outliers_Ok
    in Hrun as (obj & mask & cols & Hget & (s & -> & ->)%elementwise_Mask & Hlen & _).
  pose proof (getitem_OneColumn _ _ _ Hget) as (Hidx & Hc' & _).
  destruct s as [index cells]. simpl in *. subst index.
  assert (cells = values) as -> by congruence. clear Hc'.
  rewrite (impute_outliers_holds df column constant _ _ (p <$> values) Hget)
    in Hout by done.
  injection Hout as <-.
  set (hit := (λ l, bool_decide (l ∈ select (p <$> values) (df_index df)))
              <$> df_index df).
  rewrite (impute_outliers_holds _ column constant _
             (mkSeries (df_index df) (assign hit constant values))
             (p <$> assign hit constant values)).
  - f_equal. cbn [replace_rows df_index]. apply replace_rows_absorb.
    intros j. unfold hit. rewrite !list_lookup_fmap.
    destruct (df_index df !! j) as [l|] eqn:Hl; [|done]. simpl.
    intros [= Hin%bool_decide_eq_true]. f_equal. apply bool_decide_eq_true.
    apply elem_of_select in Hin as (k & Hk & Hlk).
    rewrite list_lookup_fmap in Hk.
    destruct (assign _ constant values !! k) as [v|] eqn:Hv; [|done].
    simpl in Hk. injection Hk as Hp.
    apply imputed_cell in Hv as [Hnone|[(l' & Hl' & Hin & _)|Hv]];
      [congruence| |congruence].
    by simplify_eq.
  - by apply (getitem_replace_rows hit column constant df
                (mkSeries (df_index df) values)).
  - done.
  - cbn [replace_rows df_index]. rewrite length_fmap, length_assign.
    rewrite length_fmap in Hlen. destruct Hlen as [Hnil|Hlen]; [left|by right].
    apply fmap_nil_inv in Hnil. rewrite Hnil. by destruct hit.
  - by apply holds_assign.
Qed.

Lemma impute_outliers_idempotent_witness :
  impute_outliers
    {| df_index := [LabelInt 0; LabelInt 0];
       df_columns := [("age", [PyInt 500; PyInt 500]);
                      ("name", [PyStr "ann"; PyStr "bob"])] |}
    "age" (PyInt 500)
    (elementwise (λ v, match v with PyInt z => (100 <? z)%Z | _ => false end))
  = Ok {| df_index := [LabelInt 0; LabelInt 0];
          df_columns := [("age", [PyInt 500; PyInt 500]);
                         ("name", [PyStr "ann"; PyStr "bob"])] |}.
Proof.
  exact (impute_outliers_idempotent people_same_label "age" (PyInt 500)
           (λ v, match v with PyInt z => (100 <? z)%Z | _ => false end)
           [PyInt 200; PyInt 30]
           {| df_index := [LabelInt 0; LabelInt 0];
              df_columns := [("age", [PyInt 500; PyInt 500]);
                             ("name", [PyStr "ann"; PyStr "bob"])] |}
           eq_refl eq_refl eq_refl).
Defined.

(** X8. After [impute_outliers] with a constant that the column holds and
    that is no outlier, nothing is left to drop: on a well-formed frame
    [drop_outliers] returns the imputed frame unchanged. *)
Theorem impute_then_drop df column constant p values out :
  well_formed df →
  column_lookup column (df_columns df) = Some values →
  holds values constant = true →
  p constant = false →
  impute_outliers df column constant (elementwise p) = Ok out →
  drop_outliers out column (elementwise p) = Ok out.
Proof.
  intros Hwf Hc Hholds Hconstant Hout. pose proof Hout as Hrun.
  apply impute_outliers_Ok
    in Hrun as (obj & mask & cols & Hget & (s & -> & ->)%elementwise_Mask & Hlen & _).
  pose proof (getitem_OneColumn _ _ _ Hget) as (Hidx & Hc' & _).
  destruct s as [index cells]. simpl in *. subst index.
  assert (cells = values) as -> by congruence. clear Hc'.
  rewrite (impute_outliers_holds df column constant _ _ (p <$> values) Hget)
    in Hout by done.
  injection Hout as <-.
  set (hit := (λ l, bool_decide (l ∈ select (p <$> values) (df_index df)))
              <$> df_index df).
  apply drop_outliers_clean
    with (mkSeries (df_index df) (assign hit constant values)).
  - by apply (getitem_replace_rows hit column constant df
                (mkSeries (df_index df) values)).
  - cbn [s_values replace_rows df_index]. rewrite length_assign.
    rewrite length_fmap in Hlen. destruct Hlen as [Hnil|Hlen]; [left|by right].
    apply fmap_nil_inv in Hnil. rewrite Hnil. by destruct hit.
  - cbn [s_values]. apply Forall_lookup. intros k v Hv.
    pose proof Hv as Hv'.
    apply imputed_cell in Hv' as [Hnone|[(l & _ & _ & ->)|Hv']]; [|done|done].
    exfalso. apply lookup_lt_Some in Hv. rewrite length_assign in Hv.
    apply lookup_ge_None in Hnone.
    unfold well_formed in Hwf. rewrite Forall_forall in Hwf.
    apply getitem_OneColumn in Hget as (_ & Hlookup & _).
    rewrite column_lookup_filter in Hlookup.
    destruct (filter (λ c, c.1 = column) (df_columns df)) as [|c cs] eqn:Hfilter;
      [done|].
    assert (Hin : c ∈ filter (λ c, c.1 = column) (df_columns df))
      by (rewrite Hfilter; left).
    apply list_elem_of_filter in Hin as [_ Hin]. specialize (Hwf c Hin).
    simpl in Hlookup. injection Hlookup as Hlookup. rewrite Hlookup in Hwf. lia.
  - pose proof (well_formed_replace_rows hit column constant df Hwf) as Hwf'.
    eapply Forall_impl; [exact Hwf'|]. intros c Hcl. simpl in *. lia.
Qed.

Lemma impute_then_drop_witness :
  drop_outliers
    {| df_index := [LabelInt 0; LabelInt 1];
       df_columns := [("age", [PyInt 50; PyInt 30]);
                      ("name", [PyStr "ann"; PyStr "bob"])] |} "age"
    (elementwise (λ v, match v with PyInt z => (100 <? z)%Z | _ => false end))
  = Ok {| df_index := [LabelInt 0; LabelInt 1];
          df_columns := [("age", [PyInt 50; PyInt 30]);
                         ("name", [PyStr "ann"; PyStr "bob"])] |}.
Proof.
  assert (Hwf : well_formed people) by (repeat constructor).
  exact (impute_then_drop people "age" (PyInt 50)
           (λ v, match v with PyInt z => (100 <? z)%Z | _ => false end)
           [PyInt 200; PyInt 30]
           {| df_index := [LabelInt 0; LabelInt 1];
              df_columns := [("age", [PyInt 50; PyInt 30]);
                             ("name", [PyStr "ann"; PyStr "bob"])] |}
           Hwf eq_refl eq_refl eq_refl eq_refl).
Defined.

(** ** The transforms on frames with distinct index labels *)

(** The cells of the frame the spec describes for [impute_outliers]. *)
Lemma cell_replace_rows mask column constant df c i :
  cell (replace_rows mask column constant df) c i
  = if decide (c = column ∧ mask !! i = Some true)
    then (λ _, constant) <$> cell df c i
    else cell df c i.
Proof.
  unfold cell, replace_rows. cbn [df_columns].
  induction (df_columns df) as [|[name values] cols IH].
  { simpl. by case_decide. }
  rewrite fmap_cons. cbn [fst snd].
  destruct (decide (name = column)) as [->|Hn]; cbn [column_lookup].
  - destruct (decide (column = c)) as [<-|Hc].
    + simpl. rewrite assign_lookup.
      destruct (mask !! i) as [[]|]; simpl.
      * rewrite decide_True by done. by destruct (values !! i).
      * rewrite decide_False by (by intros [_ ?]). by destruct (values !! i).
      * rewrite decide_False by (by intros [_ ?]). by destruct (values !! i).
    + rewrite IH. apply decide_ext. done.
  - destruct (decide (name = c)) as [<-|Hc].
    + simpl. by rewrite decide_False by (by intros [? _]).
    + apply IH.
Qed.

(** X25. On a frame with pairwise distinct index labels [drop_outliers]
    does what the spec says of it: for a predicate that answers with one
    boolean per row, it returns exactly the rows where the predicate does
    not hold, with all columns and the kept cells as they were; and when
    the predicate holds in no row of a well-formed frame, repeated labels
    or not, the result is the input frame. *)
Theorem drop_outliers_distinct_labels df column f obj mask :
  getitem df column = Ok obj →
  f obj = Ok (Mask mask) →
  length mask = length (df_index df) →
  (NoDup (df_index df) →
     drop_outliers df column f = Ok (take_rows (negb <$> mask) df))
  ∧ (well_formed df → Forall (λ b, b = false) mask →
     drop_outliers df column f = Ok df).
Proof.
  intros Hget Hf Hlen.
  pose proof (drop_outliers_by_label df column f obj mask Hget Hf (or_intror Hlen)) as Hd.
  split.
  - intros Hnd. rewrite Hd. by rewrite unselected_labels_mask.
  - intros Hwf Hnone. rewrite Hd. f_equal. rewrite select_none by done.
    apply take_rows_all; [done|by rewrite length_fmap|].
    apply Forall_fmap, Forall_forall. intros l _.
    apply bool_decide_eq_true_2, not_elem_of_nil.
Qed.

Lemma drop_outliers_distinct_labels_witness :
  drop_outliers people "age" over_100
  = Ok {| df_index := [LabelInt 1];
          df_columns := [("age", [PyInt 30]); ("name", [PyStr "bob"])] |}.
Proof.
  apply (drop_outliers_distinct_labels people "age" over_100
           (OneColumn (mkSeries (df_index people) [PyInt 200; PyInt 30]))
           [true; false] eq_refl eq_refl eq_refl).
  compute_done.
Defined.

(** X26. On a frame with pairwise distinct index labels [impute_outliers]
    does what the spec says of it, for a constant the column holds: it
    keeps the index and the column names and writes the constant into the
    target column exactly at the rows where the predicate holds; every
    other cell is as it was. *)
Theorem impute_outliers_distinct_labels df column constant f s mask :
  getitem df column = Ok (OneColumn s) →
  f (OneColumn s) = Ok (Mask mask) →
  length mask = length (df_index df) →
  holds (s_values s) constant = true →
  NoDup (df_index df) →
  ∃ out,
    impute_outliers df column constant f = Ok out
    ∧ df_index out = df_index df
    ∧ column_names out = column_names df
    ∧ ∀ c i,
        cell out c i
        = if decide (c = column ∧ mask !! i = Some true)
          then (λ _, constant) <$> cell df c i
          else cell df c i.
Proof.
  intros Hget Hf Hlen Hholds Hnd. exists (replace_rows mask column constant df).
  split.
  - rewrite (impute_outliers_holds df column constant f s mask) by (done || by right).
    by rewrite selected_labels_mask.
  - split; [done|]. split; [|intros c i; apply cell_replace_rows].
    unfold column_names, replace_rows. simpl. rewrite <- list_fmap_compose.
    apply list_fmap_ext. intros i [name values] _. simpl. by case_decide.
Qed.

Lemma impute_outliers_distinct_labels_witness :
  ∃ out,
    impute_outliers people "age" (PyInt 50) over_100 = Ok out
    ∧ df_index out = df_index people
    ∧ column_names out = column_names people
    ∧ ∀ c i,
        cell out c i
        = if decide (c = "age" ∧ [true; false] !! i = Some true)
          then (λ _, PyInt 50) <$> cell people c i
          else cell people c i.
Proof.
  apply (impute_outliers_distinct_labels people "age" (PyInt 50) over_100
           (mkSeries (df_index people) [PyInt 200; PyInt 30]) [true; false]
           eq_refl eq_refl eq_refl eq_refl).
  compute_done.
Defined.

(** * Further properties of plan generation *)

Section distinct.
Context `{Countable K}.
Implicit Types l : list K.

Lemma size_list_to_set_le l : (size (list_to_set l : gset K) ≤ length l)%nat.
Proof.
  induction l as [|x l IH]; simpl; [done|].
  rewrite size_union_alt, size_singleton.
  assert (size (list_to_set l ∖ {[x]} : gset K) ≤ size (list_to_set l : gset K))%nat
    by (apply subseteq_size; by intros y [Hy _]%elem_of_difference).
  lia.
Qed.

Lemma size_list_to_set_NoDup l :
  size (list_to_set l : gset K) = length l → NoDup l.
Proof.
  induction l as [|x l IH]; simpl; [constructor|].
  rewrite size_union_alt, size_singleton. intros Hsize.
  pose proof (size_list_to_set_le l) as Hle.
  assert (Hsub : (size (list_to_set l ∖ {[x]} : gset K)
                  ≤ size (list_to_set l : gset K))%nat)
    by (apply subseteq_size; by intros y [Hy _]%elem_of_difference).
  constructor.
  - intros Hx.
    assert (size (list_to_set l ∖ {[x]} : gset K) < size (list_to_set l : gset K))%nat;
      [|lia].
    apply subset_size. apply strict_spec_alt.
    split; [by intros y [Hy _]%elem_of_difference|].
    intros Heq. assert (Hin : x ∈ (list_to_set l ∖ {[x]} : gset K))
      by (rewrite Heq; by apply elem_of_list_to_set).
    apply elem_of_difference in Hin as [_ Hin]. by apply Hin, elem_of_singleton.
  - apply IH. lia.
Qed.

End distinct.

Lemma distinct_count_iff scores :
  distinct_count scores = length scores ↔ NoDup (score_key <$> scores).
Proof.
  split; [|apply distinct_count_NoDup].
  unfold distinct_count. intros H. apply size_list_to_set_NoDup.
  by rewrite length_fmap.
Qed.

Lemma for_each_app {A B} (body : A → B → M A) acc l1 l2 st :
  for_each body acc (l1 ++ l2) st
  = match for_each body acc l1 st with
    | (Ok acc', st') => for_each body acc' l2 st'
    | (Raise e, st') => (Raise e, st')
    end.
Proof.
  revert acc st. induction l1 as [|x l1 IH]; intros acc st; [done|].
  rewrite <- app_comm_cons, !for_each_cons.
  destruct (body acc x st) as [[acc'|e] st']; [apply IH|done].
Qed.

Lemma cleanings_split (l : list (EnumArg Clean)) :
  (∃ methods, l = Member <$> methods)
  ∨ (∃ methods value rest, l = (Member <$> methods) ++ Foreign value :: rest).
Proof.
  induction l as [|[method|value] l [[methods ->]|(methods & v & rest & ->)]].
  - left. by exists [].
  - left. by exists (method :: methods).
  - right. by exists (method :: methods), v, rest.
  - right. by exists [], value, (Member <$> methods).
  - right. by exists [], value, ((Member <$> methods) ++ Foreign v :: rest).
Qed.

Lemma omap_label_extractions (ids : nat → Z) analysis (label_of : DagNode * option Z → string)
    (scores : list (DagNode * option Z)) :
  omap patch_label
    (imap (λ j entry, Extraction (ids j) analysis entry.1 (label_of entry)) scores)
  = label_of <$> scores.
Proof.
  revert ids. induction scores as [|entry scores IH]; intros ids; [done|].
  rewrite imap_cons. simpl. f_equal. apply (IH (ids ∘ S)).
Qed.

Lemma omap_concat_imap {A} (f : nat → A → list PipelinePatch) (labels : A → list string)
    (l : list A) :
  (∀ i x, omap patch_label (f i x) = labels x) →
  omap patch_label (concat (imap f l)) = l ≫= labels.
Proof.
  revert f. induction l as [|x l IH]; intros f Hf; [done|].
  rewrite imap_cons. simpl. rewrite omap_app, Hf. f_equal.
  apply IH. intros i y. apply Hf.
Qed.

Section plans_more.

Variable get_columns_used_as_feature : DiGraph → list string.

Lemma not_one_predict_fails_aux dag st :
  length (find_nodes_by_type dag PREDICT) ≠ 1%nat →
  generate_plans_to_try get_columns_used_as_feature dag st
  = (Raise MultiplePredictNodes, st).
Proof. intros H. unfold generate_plans_to_try. by rewrite decide_True. Qed.

Local Abbreviation generate_plans := (generate_plans_to_try get_columns_used_as_feature).
Local Abbreviation loop_body dag :=
  (λ cleaning_patch_sets cleaning,
     patches_for_variant ← patches_for_cleaning get_columns_used_as_feature dag cleaning;
     mret (cleaning_patch_sets ++ [patches_for_variant])).

(** Past the check of the PREDICT nodes the score nodes are recorded and
    the remaining checks and the loop run on that state. *)
Lemma plans_after_predict_check dag st :
  length (find_nodes_by_type dag PREDICT) = 1%nat →
  generate_plans dag st
  = let st1 := recorded (recorded_scores dag) st in
    if decide (NoDup (score_key <$> recorded_scores dag))
    then if decide (error (self st) = Member OUTLIER)
         then for_each (loop_body dag) [] (cleanings (self st)) st1
         else (Raise UnsupportedErrorKind, st1)
    else (Raise AmbiguousScoreNodeIdentity, st1).
Proof.
  intros Hpredict. unfold generate_plans_to_try.
  rewrite decide_False by (intros H; by apply H).
  rewrite bind_M_run. fold (recorded_scores dag).
  unfold set_score_nodes_and_linenos at 1. rewrite bind_M_run.
  unfold get_self at 1. cbn [self _score_nodes_and_linenos error cleanings].
  cbn zeta. destruct (decide (NoDup (score_key <$> recorded_scores dag))) as [Hnd|Hnd].
  - rewrite decide_False by (intros H; apply H; by rewrite distinct_count_NoDup).
    destruct (decide (error (self st) = Member OUTLIER)) as [He|He].
    + by rewrite decide_False by (intros H; by apply H).
    + by rewrite decide_True.
  - rewrite decide_True; [done|]. intros Heq. apply Hnd.
    by apply distinct_count_iff.
Qed.

Lemma loop_stops_at_foreign dag methods value rest acc st :
  for_each (loop_body dag) acc ((Member <$> methods) ++ Foreign value :: rest) st
  = (Raise UnknownCleaningMethod,
     issued (Z.of_nat (length methods))
       (Z.of_nat (length methods)
        * (Z.of_nat (length (_score_nodes_and_linenos (self st))) + 1)) st).
Proof. by rewrite for_each_app, (loop_run get_columns_used_as_feature). Qed.

(** X10. An error kind other than OUTLIER stops plan generation with the
    exception of the third check, after the score nodes were recorded and
    before any id is issued. *)
Theorem unsupported_error_fails dag st :
  length (find_nodes_by_type dag PREDICT) = 1%nat →
  NoDup (score_key <$> recorded_scores dag) →
  error (self st) ≠ Member OUTLIER →
  generate_plans dag st
  = (Raise UnsupportedErrorKind, recorded (recorded_scores dag) st).
Proof.
  intros Hpredict Hnd Herror. rewrite plans_after_predict_check by done.
  cbn zeta. by rewrite decide_True, decide_False.
Qed.

(** X11. A cleaning that is neither FILTER nor IMPUTE stops plan generation
    with the exception of the loop and no variant is returned, not even
    those of the cleanings before it; the ids issued for them are used up:
    the counters have advanced by at least one node id and one patch id
    per earlier cleaning. *)
Theorem unknown_cleaning_fails dag st methods value rest :
  length (find_nodes_by_type dag PREDICT) = 1%nat →
  NoDup (score_key <$> recorded_scores dag) →
  error (self st) = Member OUTLIER →
  cleanings (self st) = (Member <$> methods) ++ Foreign value :: rest →
  ∃ st',
    generate_plans dag st = (Raise UnknownCleaningMethod, st')
    ∧ _score_nodes_and_linenos (self st') = recorded_scores dag
    ∧ (next_op_id (singleton st) + Z.of_nat (length methods)
       ≤ next_op_id (singleton st'))%Z
    ∧ (next_patch_id (singleton st) + Z.of_nat (length methods)
       ≤ next_patch_id (singleton st'))%Z.
Proof.
  intros Hpredict Hnd Herror Hcl. rewrite plans_after_predict_check by done.
  cbn zeta. rewrite !decide_True by done. rewrite Hcl.
  rewrite loop_stops_at_foreign. eexists. split; [done|].
  split; [done|]. simpl. split; nia.
Qed.

(** X12. [generate_plans_to_try] returns variants exactly when the graph
    has one PREDICT node and distinct score keys, the error kind is
    OUTLIER and every cleaning is FILTER or IMPUTE. *)
Theorem plans_succeed_iff dag st :
  is_Ok (generate_plans dag st).1 = true
  ↔ length (find_nodes_by_type dag PREDICT) = 1%nat
    ∧ NoDup (score_key <$> recorded_scores dag)
    ∧ error (self st) = Member OUTLIER
    ∧ Forall (λ cleaning, cleaning ∈ [Member FILTER; Member IMPUTE])
        (cleanings (self st)).
Proof.
  split.
  - intros Hok.
    destruct (decide (length (find_nodes_by_type dag PREDICT) = 1%nat)) as [Hp|Hp];
      [|by rewrite (not_one_predict_fails_aux dag st) in Hok].
    rewrite plans_after_predict_check in Hok by done. cbn zeta in Hok.
    destruct (decide (NoDup (score_key <$> recorded_scores dag))); [|done].
    destruct (decide (error (self st) = Member OUTLIER)); [|done].
    repeat (split; [done|]).
    destruct (cleanings_split (cleanings (self st)))
      as [[methods Hcl]|(methods & value & rest & Hcl)]; rewrite Hcl in Hok |- *.
    + apply Forall_fmap, Forall_forall. intros [] _; simpl; set_solver.
    + by rewrite loop_stops_at_foreign in Hok.
  - intros (Hp & Hnd & Herr & [methods Hcl]%members_of).
    by rewrite (plans_closed_form get_columns_used_as_feature dag st methods).
Qed.

(** X13. In every outcome plan generation writes nothing on the analysis
    object but [_score_nodes_and_linenos], which holds the score nodes of
    the graph once the check of the PREDICT nodes has passed; it never
    touches the results mapping and never lowers an id counter. *)
Theorem plans_frame dag st :
  let st' := (generate_plans dag st).2 in
  column (self st') = column (self st)
  ∧ error (self st') = error (self st)
  ∧ cleanings (self st') = cleanings (self st)
  ∧ impute_constant (self st') = impute_constant (self st)
  ∧ outlier_func (self st') = outlier_func (self st)
  ∧ analysis_id (self st') = analysis_id (self st)
  ∧ _score_nodes_and_linenos (self st')
    = (if decide (length (find_nodes_by_type dag PREDICT) = 1%nat)
       then recorded_scores dag
       else _score_nodes_and_linenos (self st))
  ∧ labels_to_extracted_plan_results (singleton st')
    = labels_to_extracted_plan_results (singleton st)
  ∧ (next_op_id (singleton st) ≤ next_op_id (singleton st'))%Z
  ∧ (next_patch_id (singleton st) ≤ next_patch_id (singleton st'))%Z.
Proof.
  cbn zeta.
  destruct (decide (length (find_nodes_by_type dag PREDICT) = 1%nat)) as [Hp|Hp];
    [|rewrite (not_one_predict_fails_aux dag st) by done; repeat split; simpl; lia].
  rewrite plans_after_predict_check by done. cbn zeta.
  destruct (decide (NoDup (score_key <$> recorded_scores dag)));
    [|repeat split; simpl; lia].
  destruct (decide (error (self st) = Member OUTLIER)); [|repeat split; simpl; lia].
  destruct (cleanings_split (cleanings (self st)))
    as [[methods Hcl]|(methods & value & rest & Hcl)]; rewrite Hcl.
  - rewrite (loop_run get_columns_used_as_feature). rewrite <- Hcl.
    repeat split; simpl; nia.
  - rewrite loop_stops_at_foreign. rewrite <- Hcl. repeat split; simpl; nia.
Qed.

Lemma built_variant_Forall (P : PipelinePatch → Prop) this dag method op_id first :
  (∀ patch, patch ∈ built_variant get_columns_used_as_feature this dag method op_id first →
     P patch) →
  Forall P (built_variant get_columns_used_as_feature this dag method op_id first).
Proof. intros H. by apply Forall_forall. Qed.

(** The patch at position [j] of a built variant. *)
Lemma built_variant_lookup this dag method op_id first j patch :
  built_variant get_columns_used_as_feature this dag method op_id first !! j
    = Some patch →
  patch_id_of patch = (first + Z.of_nat j)%Z
  ∧ (j ≤ length (_score_nodes_and_linenos this))%nat
  ∧ patch_analysis patch = analysis_id this
  ∧ (if decide (j = length (_score_nodes_and_linenos this))
     then patch_flags patch = Some (true, false)
          ∧ patch_method patch = Some method ∧ patch_label patch = None
     else ∃ entry, _score_nodes_and_linenos this !! j = Some entry
          ∧ patch_label patch
            = Some (at_line (cleaning_label (column this) (Clean_value method)) entry.2)
          ∧ patch_flags patch = None).
Proof.
  unfold built_variant. cbn zeta.
  set (scores := _score_nodes_and_linenos this).
  assert (Hlen : length (extraction_patches (analysis_id this)
                           (cleaning_label (column this) (Clean_value method))
                           scores first) = length scores)
    by (unfold extraction_patches; apply length_imap).
  destruct (decide (j < length scores)%nat) as [Hj|Hj].
  - rewrite lookup_app_l by lia. unfold extraction_patches.
    rewrite list_lookup_imap.
    destruct (scores !! j) as [entry|] eqn:He; [|done]. intros [= <-]. simpl.
    rewrite decide_False by lia. split; [done|]. split; [lia|].
    split; [reflexivity|]. exists entry. by repeat split.
  - rewrite lookup_app_r by lia. rewrite Hlen.
    destruct (j - length scores)%nat as [|k] eqn:Hk; [|by destruct k].
    assert (j = length scores) as -> by lia.
    destruct (decide (length scores = length scores)) as [_|?]; [|done].
    destruct method; intros [= <-]; simpl; repeat split; first [lia | reflexivity].
Qed.

(** X14. Every patch of every returned variant carries the analysis id of
    the object, and every intervention patch, for FILTER and for IMPUTE
    alike, is built with the same two booleans, True and False. *)
Theorem patches_belong_to_analysis dag st :
  length (find_nodes_by_type dag PREDICT) = 1%nat →
  NoDup (score_key <$> recorded_scores dag) →
  error (self st) = Member OUTLIER →
  Forall (λ cleaning, cleaning ∈ [Member FILTER; Member IMPUTE]) (cleanings (self st)) →
  ∃ variants st',
    generate_plans dag st = (Ok variants, st')
    ∧ Forall (Forall (λ patch, patch_analysis patch = analysis_id (self st))) variants
    ∧ Forall (Forall (λ patch, patch_flags patch = None
                               ∨ patch_flags patch = Some (true, false))) variants.
Proof.
  intros Hpredict Hscores Herror [methods Hcl]%members_of.
  eexists _, _. split; [by apply plans_closed_form|].
  split; apply Forall_lookup; intros i variant; unfold built_variants;
    rewrite list_lookup_imap; destruct (methods !! i) as [method|]; try done;
    intros [= <-]; apply Forall_lookup; intros j patch Hj;
    apply built_variant_lookup in Hj as (_ & _ & Han & Hrest).
  - done.
  - case_decide; [right; apply Hrest|left].
    by destruct Hrest as (entry & _ & _ & ?).
Qed.

(** X15. No two patches returned by one run share a patch id, and every
    patch id lies between the counter before the run and the counter
    after it. *)
Theorem patch_ids_are_fresh dag st :
  length (find_nodes_by_type dag PREDICT) = 1%nat →
  NoDup (score_key <$> recorded_scores dag) →
  error (self st) = Member OUTLIER →
  Forall (λ cleaning, cleaning ∈ [Member FILTER; Member IMPUTE]) (cleanings (self st)) →
  ∃ variants st',
    generate_plans dag st = (Ok variants, st')
    ∧ (∀ i j variant patch,
         variants !! i = Some variant → variant !! j = Some patch →
         (next_patch_id (singleton st) ≤ patch_id_of patch
          < next_patch_id (singleton st'))%Z)
    ∧ (∀ i j i' j' variant variant' patch patch',
         variants !! i = Some variant → variant !! j = Some patch →
         variants !! i' = Some variant' → variant' !! j' = Some patch' →
         patch_id_of patch = patch_id_of patch' → i = i' ∧ j = j').
Proof.
  intros Hpredict Hscores Herror [methods Hcl]%members_of.
  eexists _, _. split; [by apply plans_closed_form|].
  assert (Hat : ∀ i j variant patch,
            built_variants get_columns_used_as_feature
              (self (recorded (recorded_scores dag) st)) dag methods
              (next_op_id (singleton st)) (next_patch_id (singleton st)) !! i
              = Some variant →
            variant !! j = Some patch →
            (i < length methods)%nat
            ∧ (j ≤ length (recorded_scores dag))%nat
            ∧ patch_id_of patch
              = (next_patch_id (singleton st)
                 + Z.of_nat i * (Z.of_nat (length (recorded_scores dag)) + 1)
                 + Z.of_nat j)%Z).
  { intros i j variant patch Hi Hj. unfold built_variants in Hi.
    rewrite list_lookup_imap in Hi.
    destruct (methods !! i) as [method|] eqn:Hm; [|done].
    apply lookup_lt_Some in Hm. injection Hi as <-.
    apply built_variant_lookup in Hj as (Hid & Hle & _). by rewrite Hid. }
  split.
  - intros i j variant patch Hi Hj.
    destruct (Hat _ _ _ _ Hi Hj) as (Hlt & Hle & ->). simpl. nia.
  - intros i j i' j' variant variant' patch patch' Hi Hj Hi' Hj' Heq.
    destruct (Hat _ _ _ _ Hi Hj) as (_ & Hle & Hid).
    destruct (Hat _ _ _ _ Hi' Hj') as (_ & Hle' & Hid').
    rewrite Hid, Hid' in Heq.
    assert (i = i') as -> by nia. split; [done|lia].
Qed.

(** The labels of the extraction patches of all variants, in order. *)
Lemma built_variants_labels this dag methods op_id patch_id :
  omap patch_label
    (concat (built_variants get_columns_used_as_feature this dag methods op_id patch_id))
  = methods ≫= λ method,
      at_line (cleaning_label (column this) (Clean_value method))
        <$> (snd <$> _score_nodes_and_linenos this).
Proof.
  unfold built_variants. apply omap_concat_imap.
  intros i method. unfold built_variant. cbn zeta.
  rewrite omap_app. unfold extraction_patches.
  rewrite (omap_label_extractions _ _
             (λ entry, at_line (cleaning_label (column this) (Clean_value method))
                         entry.2)).
  rewrite <- list_fmap_compose. destruct method; simpl; by rewrite app_nil_r.
Qed.

(** X16. The labels under which the extraction patches of the returned
    variants capture results are, in order, exactly the labels
    [generate_final_report] looks up beyond the baseline labels. *)
Theorem plans_capture_report_labels dag st methods :
  length (find_nodes_by_type dag PREDICT) = 1%nat →
  NoDup (score_key <$> recorded_scores dag) →
  error (self st) = Member OUTLIER →
  cleanings (self st) = Member <$> methods →
  ∃ variants st',
    generate_plans dag st = (Ok variants, st')
    ∧ required_labels (column (self st')) methods (_score_nodes_and_linenos (self st'))
      = (at_line "original" <$> (snd <$> recorded_scores dag))
        ++ omap patch_label (concat variants).
Proof.
  intros Hpredict Hscores Herror Hcl.
  eexists _, _. split; [by apply plans_closed_form|].
  by rewrite built_variants_labels.
Qed.

(** X17. The check of the score nodes compares (node, line) pairs: SCORE
    nodes with pairwise distinct ids never fail it, also when they share
    a source line. *)
Theorem distinct_nodes_pass_the_score_check dag st :
  NoDup (node_id <$> find_nodes_by_type dag SCORE) →
  (generate_plans dag st).1 ≠ Raise AmbiguousScoreNodeIdentity.
Proof.
  intros Hids.
  assert (Hnd : NoDup (score_key <$> recorded_scores dag)).
  { apply (NoDup_fmap_1 fst). unfold recorded_scores.
    rewrite <- !list_fmap_compose. exact Hids. }
  destruct (decide (length (find_nodes_by_type dag PREDICT) = 1%nat)) as [Hp|Hp];
    [|by rewrite (not_one_predict_fails_aux dag st)].
  rewrite plans_after_predict_check by done. cbn zeta.
  rewrite decide_True by done. case_decide; [|done].
  destruct (cleanings_split (cleanings (self st)))
    as [[methods Hcl]|(methods & value & rest & Hcl)]; rewrite Hcl.
  - by rewrite (loop_run get_columns_used_as_feature).
  - by rewrite loop_stops_at_foreign.
Qed.

End plans_more.

(** ** The further properties of plan generation at example pipelines *)

Lemma unsupported_error_fails_witness :
  generate_plans_to_try example_features example_dag
    (mkState untyped_error_analysis fresh_singleton)
  = (Raise UnsupportedErrorKind,
     recorded (recorded_scores example_dag)
       (mkState untyped_error_analysis fresh_singleton)).
Proof.
  apply (unsupported_error_fails example_features example_dag);
    [reflexivity | compute_done | compute_done].
Defined.

Lemma unknown_cleaning_fails_witness :
  ∃ st',
    generate_plans_to_try example_features example_dag
      (mkState unknown_cleaning_analysis fresh_singleton)
    = (Raise UnknownCleaningMethod, st')
    ∧ _score_nodes_and_linenos (self st') = recorded_scores example_dag
    ∧ (100 + 1 ≤ next_op_id (singleton st'))%Z
    ∧ (7 + 1 ≤ next_patch_id (singleton st'))%Z.
Proof.
  exact (unknown_cleaning_fails example_features example_dag
           (mkState unknown_cleaning_analysis fresh_singleton)
           [FILTER] (Some "standardize") [Member IMPUTE]
           eq_refl ltac:(compute_done) eq_refl eq_refl).
Defined.

Lemma patches_belong_to_analysis_witness :
  ∃ variants st',
    generate_plans_to_try example_features example_dag
      (mkState example_analysis fresh_singleton) = (Ok variants, st')
    ∧ Forall (Forall (λ patch, patch_analysis patch = analysis_id example_analysis))
        variants
    ∧ Forall (Forall (λ patch, patch_flags patch = None
                               ∨ patch_flags patch = Some (true, false))) variants.
Proof.
  apply (patches_belong_to_analysis example_features example_dag
           (mkState example_analysis fresh_singleton));
    [reflexivity | compute_done | reflexivity | compute_done].
Defined.

Lemma patch_ids_are_fresh_witness :
  ∃ variants st',
    generate_plans_to_try example_features example_dag
      (mkState example_analysis fresh_singleton) = (Ok variants, st')
    ∧ (∀ i j variant patch,
         variants !! i = Some variant → variant !! j = Some patch →
         (7 ≤ patch_id_of patch < next_patch_id (singleton st'))%Z).
Proof.
  destruct (patch_ids_are_fresh example_features example_dag
              (mkState example_analysis fresh_singleton))
    as (variants & st' & Hrun & Hbounds & _);
    [reflexivity | compute_done | reflexivity | compute_done |].
  exists variants, st'. split; [exact Hrun | exact Hbounds].
Defined.

Lemma plans_capture_report_labels_witness :
  ∃ variants st',
    generate_plans_to_try example_features example_dag
      (mkState example_analysis fresh_singleton) = (Ok variants, st')
    ∧ required_labels (column (self st')) [FILTER; IMPUTE]
        (_score_nodes_and_linenos (self st'))
      = (at_line "original" <$> (snd <$> recorded_scores example_dag))
        ++ omap patch_label (concat variants).
Proof.
  exact (plans_capture_report_labels example_features example_dag
           (mkState example_analysis fresh_singleton) [FILTER; IMPUTE]
           eq_refl ltac:(compute_done) eq_refl eq_refl).
Defined.

Lemma distinct_nodes_pass_the_score_check_witness :
  (generate_plans_to_try example_features same_line_dag
     (mkState example_analysis fresh_singleton)).1
  ≠ Raise AmbiguousScoreNodeIdentity.
Proof.
  apply (distinct_nodes_pass_the_score_check example_features same_line_dag).
  compute_done.
Defined.

(** * Further properties of the report *)

(** ** Insertion-ordered dicts *)

Lemma column_lookup_Some_elem key (d : PyDict) values :
  column_lookup key d = Some values → (key, values) ∈ d.
Proof.
  induction d as [|[k v] d IH]; simpl; [done|].
  case_decide as Hk; [intros [= <-]; subst; left|right; auto].
Qed.

Lemma column_lookup_dict_set key name values (d : PyDict) :
  column_lookup key (dict_set name values d)
  = if decide (key = name) then Some values else column_lookup key d.
Proof.
  induction d as [|[k v] d IH]; simpl.
  - destruct (decide (name = key)) as [->|Hne].
    + by rewrite decide_True.
    + by rewrite decide_False.
  - destruct (decide (k = name)) as [->|Hk]; simpl.
    + destruct (decide (name = key)) as [->|Hne].
      * by rewrite decide_True.
      * by rewrite decide_False.
    + destruct (decide (k = key)) as [->|Hne].
      * by rewrite decide_False.
      * apply IH.
Qed.

Lemma dict_set_keys name values (d : PyDict) :
  (dict_set name values d).*1
  = if decide (name ∈ d.*1) then d.*1 else d.*1 ++ [name].
Proof.
  induction d as [|[k v] d IH]; [done|]. cbn [dict_set].
  destruct (decide (k = name)) as [->|Hk]; rewrite !fmap_cons; cbn [fst].
  - rewrite decide_True; [done|left].
  - rewrite IH. destruct (decide (name ∈ d.*1)) as [Hin|Hin].
    + rewrite decide_True; [done|by right].
    + rewrite decide_False; [done|]. intros [?|?]%elem_of_cons; congruence.
Qed.

Lemma dict_set_fresh name values (d : PyDict) :
  name ∉ d.*1 → dict_set name values d = d ++ [(name, values)].
Proof.
  induction d as [|[k v] d IH]; simpl; [done|].
  intros [Hne Hin]%not_elem_of_cons. rewrite decide_False by done.
  by rewrite IH.
Qed.

Lemma dict_set_app_r name values (d1 d2 : PyDict) :
  name ∉ d1.*1 → dict_set name values (d1 ++ d2) = d1 ++ dict_set name values d2.
Proof.
  induction d1 as [|[k v] d1 IH]; simpl; [done|].
  intros [Hne Hin]%not_elem_of_cons. rewrite decide_False by done.
  by rewrite IH.
Qed.

Lemma column_lookup_app_r key (d1 d2 : PyDict) :
  key ∉ d1.*1 → column_lookup key (d1 ++ d2) = column_lookup key d2.
Proof.
  induction d1 as [|[k v] d1 IH]; simpl; [done|].
  intros [Hne Hin]%not_elem_of_cons. rewrite decide_False by done. auto.
Qed.

(** Merging a dict whose keys are new and pairwise distinct appends it. *)
Lemma dict_update_fresh (d other : PyDict) :
  NoDup other.*1 → (∀ key, key ∈ other.*1 → key ∉ d.*1) →
  dict_update d other = d ++ other.
Proof.
  unfold dict_update. revert d.
  induction other as [|[k v] other IH]; intros d Hnd Hfresh; simpl.
  - by rewrite app_nil_r.
  - apply NoDup_cons in Hnd as [Hk Hnd].
    rewrite dict_set_fresh by (apply Hfresh; left).
    rewrite IH, <- app_assoc; [done|done|].
    intros key Hkey. rewrite fmap_app, elem_of_app. simpl.
    intros [Hin|Hin%list_elem_of_singleton].
    + apply (Hfresh key); [by right|done].
    + by subst.
Qed.

(** ** The loops with every label present *)

Section report_more.
Variable singleton : Singleton.
Local Abbreviation results := (labels_to_extracted_plan_results singleton).

Lemma append_metric_stored label name metrics :
  is_Some (results !! label) →
  append_metric singleton label name metrics
  = Ok (record_metric name (stored results label) metrics).
Proof.
  intros [v Hv]. rewrite (append_metric_present _ _ _ _ v Hv).
  unfold record_metric, stored. by rewrite Hv.
Qed.

Lemma metric_pass_stored {E} (label_of name_of : E → string) entries metrics :
  Forall (λ entry, is_Some (results !! label_of entry)) entries →
  for_each_result
    (λ metrics entry,
       append_metric singleton (label_of entry) (name_of entry) metrics)
    metrics entries
  = Ok (foldl (λ metrics entry,
                 record_metric (name_of entry) (stored results (label_of entry)) metrics)
          metrics entries).
Proof.
  intros Hall. revert metrics.
  induction Hall as [|entry entries Hentry _ IH]; intros metrics; [done|].
  rewrite for_each_result_cons, append_metric_stored, bind_Ok by done. apply IH.
Qed.

End report_more.

Lemma for_each_result_fmap {A B C} (body : A → C → result A) (f : B → C) acc l :
  for_each_result body acc (f <$> l) = for_each_result (λ acc x, body acc (f x)) acc l.
Proof.
  revert acc. induction l as [|x l IH]; intros acc; [done|].
  rewrite fmap_cons, !for_each_result_cons. destruct (body acc (f x)); [apply IH|done].
Qed.

Section report_pure.
Variable singleton : Singleton.
Local Abbreviation results := (labels_to_extracted_plan_results singleton).

(** The rows of the cleaning methods when every label is present. *)
Lemma report_rows_stored scores column e methods acc :
  Forall (λ method,
     Forall (λ entry : DagNode * option Z,
        is_Some (results !! at_line (cleaning_label column (Clean_value method)) entry.2))
       scores) methods →
  for_each_result
    (report_row singleton
       ((λ entry : DagNode * option Z, (description (details entry.1), entry.2))
          <$> scores)
       column (Member e))
    acc (Member <$> methods)
  = Ok {| result_df_columns :=
            result_df_columns acc ++ ((λ _, PyStr column) <$> methods);
          result_df_errors :=
            result_df_errors acc ++ ((λ _, PyStr (ErrorType_value e)) <$> methods);
          result_df_cleaning_methods :=
            result_df_cleaning_methods acc
            ++ ((λ method, PyStr (Clean_value method)) <$> methods);
          result_df_metrics :=
            foldl
              (λ metrics method,
                 foldl (λ metrics entry,
                          record_metric (metric_name entry)
                            (stored results
                               (at_line (cleaning_label column (Clean_value method))
                                  entry.2))
                            metrics)
                   metrics scores)
              (result_df_metrics acc) methods |}.
Proof.
  intros Hall. revert acc.
  induction Hall as [|method methods Hmethod _ IH]; intros acc.
  - simpl. rewrite !app_nil_r. by destruct acc.
  - rewrite fmap_cons, for_each_result_cons, report_row_member.
    rewrite for_each_result_fmap.
    rewrite (metric_pass_stored singleton
               (λ entry : DagNode * option Z,
                  at_line (cleaning_label column (Clean_value method)) entry.2)
               metric_name) by done.
    rewrite !bind_Ok, IH. simpl. by rewrite <- !app_assoc.
Qed.

(** The report when every label is present: the table pandas builds from
    the metadata columns and the metrics dict. *)
Lemma report_stored self extracted_plan_results e methods :
  error self = Member e →
  cleanings self = Member <$> methods →
  Forall (λ label, is_Some (results !! label))
    (required_labels (column self) methods (_score_nodes_and_linenos self)) →
  generate_final_report self singleton extracted_plan_results
  = from_dict
      (dict_update (metadata_columns (column self) e methods)
         (metrics_of results (column self) methods (_score_nodes_and_linenos self))).
Proof.
  intros Herr Hcl Hall. rewrite Forall_forall in Hall.
  unfold generate_final_report. rewrite Herr, Hcl. cbn zeta.
  rewrite for_each_result_fmap.
  rewrite (metric_pass_stored singleton
             (λ entry : DagNode * option Z, at_line "original" entry.2) metric_name).
  2:{ apply Forall_forall. intros entry Hentry. apply Hall.
      apply elem_of_required_labels. left. eauto. }
  rewrite bind_Ok, for_each_result_cons. cbn [fst snd].
  rewrite report_rows_stored.
  2:{ apply Forall_forall. intros method Hmethod.
      apply Forall_forall. intros entry Hentry. apply Hall.
      apply elem_of_required_labels. right. eauto 10. }
  reflexivity.
Qed.

End report_pure.

(** ** The metrics dict in closed form *)

Section metrics.
Context {E : Type} (name_of : E → string).

Lemma keys_fmap (values_of : E → list PyVal) (l : list E) :
  ((λ entry, (name_of entry, values_of entry)) <$> l).*1 = name_of <$> l.
Proof. rewrite <- list_fmap_compose. by apply list_fmap_ext. Qed.

(** A pass over entries with distinct names that the dict does not hold
    yet adds one column per entry. *)
Lemma fold_record_new (value_of : E → PyVal) (l1 l2 : list E) :
  NoDup (name_of <$> (l1 ++ l2)) →
  foldl (λ metrics entry, record_metric (name_of entry) (value_of entry) metrics)
    ((λ entry, (name_of entry, [value_of entry])) <$> l1) l2
  = (λ entry, (name_of entry, [value_of entry])) <$> (l1 ++ l2).
Proof.
  revert l1. induction l2 as [|entry l2 IH]; intros l1 Hnd; simpl.
  { by rewrite app_nil_r. }
  assert (Hfresh : name_of entry
                   ∉ ((λ entry, (name_of entry, [value_of entry])) <$> l1).*1).
  { rewrite keys_fmap. rewrite fmap_app, fmap_cons in Hnd.
    apply NoDup_app in Hnd as (_ & Hdisj & _). intros Hin.
    apply (Hdisj _ Hin). left. }
  unfold record_metric at 2. unfold dict_get.
  rewrite (proj2 (column_lookup_None _ _) Hfresh). simpl.
  rewrite dict_set_fresh by done.
  replace (((λ entry, (name_of entry, [value_of entry])) <$> l1)
           ++ [(name_of entry, [value_of entry])])
    with ((λ entry, (name_of entry, [value_of entry])) <$> (l1 ++ [entry]))
    by (by rewrite fmap_app).
  rewrite IH by (by rewrite <- app_assoc). by rewrite <- app_assoc.
Qed.

(** A pass over the entries of a dict that holds one column per entry,
    under distinct names, extends every column by one value. *)
Lemma fold_record_old (values_of : E → list PyVal) (value_of : E → PyVal)
    (l1 l2 : list E) :
  NoDup (name_of <$> (l1 ++ l2)) →
  foldl (λ metrics entry, record_metric (name_of entry) (value_of entry) metrics)
    (((λ entry, (name_of entry, values_of entry ++ [value_of entry])) <$> l1)
     ++ ((λ entry, (name_of entry, values_of entry)) <$> l2)) l2
  = (λ entry, (name_of entry, values_of entry ++ [value_of entry])) <$> (l1 ++ l2).
Proof.
  revert l1. induction l2 as [|entry l2 IH]; intros l1 Hnd.
  { simpl. by rewrite !app_nil_r. }
  cbn [foldl]. rewrite fmap_cons.
  assert (Hfresh : name_of entry
                   ∉ ((λ entry, (name_of entry, values_of entry ++ [value_of entry]))
                        <$> l1).*1).
  { rewrite keys_fmap. rewrite fmap_app, fmap_cons in Hnd.
    apply NoDup_app in Hnd as (_ & Hdisj & _). intros Hin.
    apply (Hdisj _ Hin). left. }
  unfold record_metric at 2. unfold dict_get.
  rewrite column_lookup_app_r by done. cbn [column_lookup].
  rewrite decide_True by done.
  rewrite dict_set_app_r by done. cbn [dict_set]. rewrite decide_True by done.
  replace (((λ entry, (name_of entry, values_of entry ++ [value_of entry])) <$> l1)
           ++ (name_of entry, values_of entry ++ [value_of entry])
              :: ((λ entry, (name_of entry, values_of entry)) <$> l2))
    with (((λ entry, (name_of entry, values_of entry ++ [value_of entry]))
             <$> (l1 ++ [entry]))
          ++ ((λ entry, (name_of entry, values_of entry)) <$> l2))
    by (by rewrite fmap_app, <- app_assoc).
  rewrite IH by (by rewrite <- app_assoc). by rewrite <- app_assoc.
Qed.

Lemma fold_record_first (value_of : E → PyVal) (l : list E) :
  NoDup (name_of <$> l) →
  foldl (λ metrics entry, record_metric (name_of entry) (value_of entry) metrics) [] l
  = (λ entry, (name_of entry, [value_of entry])) <$> l.
Proof. apply (fold_record_new value_of [] l). Qed.

Lemma fold_record_next (values_of : E → list PyVal) (value_of : E → PyVal)
    (l : list E) :
  NoDup (name_of <$> l) →
  foldl (λ metrics entry, record_metric (name_of entry) (value_of entry) metrics)
    ((λ entry, (name_of entry, values_of entry)) <$> l) l
  = (λ entry, (name_of entry, values_of entry ++ [value_of entry])) <$> l.
Proof. apply (fold_record_old values_of value_of [] l). Qed.

(** One pass per row: every column grows by one value per row. *)
Lemma fold_record_rows {R} (values_of : E → list PyVal) (value_of : R → E → PyVal)
    (rows : list R) (l : list E) :
  NoDup (name_of <$> l) →
  foldl
    (λ metrics row,
       foldl (λ metrics entry,
                record_metric (name_of entry) (value_of row entry) metrics)
         metrics l)
    ((λ entry, (name_of entry, values_of entry)) <$> l) rows
  = (λ entry,
       (name_of entry, values_of entry ++ ((λ row, value_of row entry) <$> rows)))
      <$> l.
Proof.
  intros Hnd. revert values_of.
  induction rows as [|row rows IH]; intros values_of.
  - simpl. apply list_fmap_ext. intros i entry _. by rewrite app_nil_r.
  - cbn [foldl]. rewrite (fold_record_next values_of (value_of row)) by done.
    rewrite (IH (λ entry, values_of entry ++ [value_of row entry])).
    apply list_fmap_ext. intros i entry _. simpl. by rewrite <- app_assoc.
Qed.

End metrics.

Lemma metrics_of_distinct results column methods scores :
  NoDup (metric_name <$> scores) →
  metrics_of results column methods scores
  = (λ entry, (metric_name entry, metric_values results column methods entry.2))
      <$> scores.
Proof.
  intros Hnd. unfold metrics_of.
  rewrite (fold_record_first metric_name) by done.
  by rewrite (fold_record_rows metric_name
                (λ entry, [stored results (at_line "original" entry.2)])
                (λ method entry,
                   stored results
                     (at_line (cleaning_label column (Clean_value method)) entry.2))).
Qed.

(** A metric column is never named like a metadata column. *)
Lemma at_line_not_metadata label lineno column e methods :
  at_line label lineno ∉ (metadata_columns column e methods).*1.
Proof.
  unfold at_line, metadata_columns. simpl. generalize (format_lineno lineno).
  intros suffix Hin.
  repeat (apply elem_of_cons in Hin as [Hin|Hin]); [| | |by apply elem_of_nil in Hin].
  all: repeat (destruct label as [|? label]; simplify_eq/=).
Qed.

(** *** What the constructor of the frame makes of the columns *)

Lemma infer_objects_labels cells :
  Forall (λ v, is_none v || is_str v = true) cells → infer_objects cells = cells.
Proof.
  intros Hcells.
  assert (Hno : ∀ q : PyVal → bool,
             (∀ v, is_none v || is_str v = true → q v = false) →
             existsb q cells = false).
  { intros q Hq. induction Hcells as [|v cells Hv _ IH]; [done|].
    simpl. by rewrite (Hq v Hv), IH. }
  unfold infer_objects.
  rewrite (Hno is_bool), (Hno is_float), (Hno is_int) by (by intros []).
  rewrite orb_false_r. simpl. destruct (existsb is_str cells); [done|].
  by destruct (existsb is_none cells).
Qed.

Lemma to_float_floats cells :
  forallb is_float cells = true → to_float <$> cells = cells.
Proof.
  induction cells as [|v cells IH]; [done|]. rewrite fmap_cons. cbn [forallb].
  intros [Hv Hcells]%andb_true_iff. rewrite IH by done. by destruct v.
Qed.

Lemma infer_objects_floats cells :
  forallb is_float cells = true → infer_objects cells = cells.
Proof.
  intros Hcells.
  assert (Hno : ∀ q : PyVal → bool,
             (∀ v, is_float v = true → q v = false) → existsb q cells = false).
  { intros q Hq. induction cells as [|v cells IH]; [done|]. simpl in *.
    apply andb_true_iff in Hcells as [Hv Hcells]. by rewrite (Hq v Hv), IH. }
  unfold infer_objects.
  rewrite (Hno is_str), (Hno is_bool), (Hno is_none), (Hno is_int) by (by intros []).
  rewrite (Hno (λ v, is_int v && negb (is_int64 v))) by (by intros []).
  simpl. rewrite andb_true_r. destruct (existsb is_float cells); [|done].
  simpl. rewrite to_float_floats by done. by case_match.
Qed.

Lemma metadata_columns_inferred column e methods :
  (λ c : string * list PyVal, (c.1, infer_objects c.2))
    <$> metadata_columns column e methods
  = metadata_columns column e methods.
Proof.
  unfold metadata_columns. rewrite !fmap_cons. cbn [fst snd fmap list_fmap].
  rewrite !infer_objects_labels; [done|..];
    (constructor; [done|]); apply Forall_fmap, Forall_forall; by intros.
Qed.

Lemma from_dict_report column e methods (metrics : PyDict) :
  Forall (λ c, length c.2 = S (length methods)) metrics →
  from_dict (metadata_columns column e methods ++ metrics)
  = Ok {| df_index := RangeIndex (S (length methods));
          df_columns :=
            metadata_columns column e methods
            ++ ((λ c, (c.1, infer_objects c.2)) <$> metrics) |}.
Proof.
  intros Hlen. rewrite <- (metadata_columns_inferred column e methods) at 2.
  rewrite <- fmap_app.
  unfold from_dict, metadata_columns. cbn [app].
  assert (Hall : forallb
            (λ c : string * list PyVal,
               bool_decide (length c.2
                            = length (PyNone :: ((λ _, PyStr column) <$> methods))))
            (metadata_columns column e methods ++ metrics) = true).
  { apply forallb_forall. intros c Hc%list_elem_of_In.
    apply bool_decide_eq_true. simpl. rewrite length_fmap.
    apply elem_of_app in Hc as [Hc|Hc].
    - unfold metadata_columns in Hc.
      repeat (apply elem_of_cons in Hc as [->|Hc]); simpl; rewrite ?length_fmap;
        try done. by apply elem_of_nil in Hc.
    - rewrite Forall_forall in Hlen. by apply Hlen. }
  unfold metadata_columns in Hall. cbn [app] in Hall. rewrite Hall.
  cbn [length]. by rewrite length_fmap.
Qed.

(** The report when every label is present and the score entries have
    pairwise distinct metric names: the metadata columns, then the metric
    columns as the constructor of the frame types them. *)
Lemma report_distinct_names self singleton extracted_plan_results e methods :
  error self = Member e →
  cleanings self = Member <$> methods →
  NoDup (metric_name <$> _score_nodes_and_linenos self) →
  Forall (λ label, is_Some (labels_to_extracted_plan_results singleton !! label))
    (required_labels (column self) methods (_score_nodes_and_linenos self)) →
  generate_final_report self singleton extracted_plan_results
  = Ok {| df_index := RangeIndex (S (length methods));
          df_columns :=
            metadata_columns (column self) e methods
            ++ ((λ entry,
                   (metric_name entry,
                    infer_objects
                      (metric_values (labels_to_extracted_plan_results singleton)
                         (column self) methods entry.2)))
                  <$> _score_nodes_and_linenos self) |}.
Proof.
  intros Herr Hcl Hnd Hall.
  rewrite (report_stored singleton self extracted_plan_results e methods) by done.
  rewrite metrics_of_distinct by done.
  rewrite dict_update_fresh.
  - rewrite from_dict_report.
    + by rewrite <- list_fmap_compose.
    + apply Forall_fmap, Forall_forall. intros entry _.
      simpl. by rewrite length_fmap.
  - by rewrite keys_fmap.
  - intros key. rewrite keys_fmap. intros (entry & -> & _)%list_elem_of_fmap.
    apply at_line_not_metadata.
Qed.

Lemma float_results_present results labels :
  float_results results labels →
  Forall (λ label, is_Some (results !! label)) labels.
Proof.
  intros Hfloat. eapply Forall_impl; [exact Hfloat|]. intros label [f ->]. by eexists.
Qed.

Lemma metric_values_floats results column methods scores entry :
  float_results results (required_labels column methods scores) →
  entry ∈ scores →
  forallb is_float (metric_values results column methods entry.2) = true.
Proof.
  intros Hfloat Hentry. unfold float_results in Hfloat. rewrite Forall_forall in Hfloat.
  assert (Hstored : ∀ label, label ∈ required_labels column methods scores →
                             is_float (stored results label) = true).
  { intros label [f Hf]%Hfloat. unfold stored. by rewrite Hf. }
  unfold metric_values. cbn [forallb]. apply andb_true_iff. split.
  - apply Hstored, elem_of_required_labels. left. eauto.
  - apply forallb_forall. intros v (method & -> & Hm)%list_elem_of_In%list_elem_of_fmap.
    apply Hstored, elem_of_required_labels. right. eauto 10.
Qed.

(** The report when the results are floats. *)
Lemma report_float_results self singleton extracted_plan_results e methods :
  error self = Member e →
  cleanings self = Member <$> methods →
  NoDup (metric_name <$> _score_nodes_and_linenos self) →
  float_results (labels_to_extracted_plan_results singleton)
    (required_labels (column self) methods (_score_nodes_and_linenos self)) →
  generate_final_report self singleton extracted_plan_results
  = Ok (expected_report (labels_to_extracted_plan_results singleton)
          (column self) e methods (_score_nodes_and_linenos self)).
Proof.
  intros Herr Hcl Hnd Hfloat.
  rewrite (report_distinct_names self singleton extracted_plan_results e methods)
    by (done || by apply float_results_present).
  unfold expected_report. do 3 f_equal.
  apply list_fmap_ext. intros i entry Hentry%list_elem_of_lookup_2. f_equal.
  apply infer_objects_floats. by eapply metric_values_floats.
Qed.

(** X18. With error kind and cleanings from their enumerations, score
    entries with pairwise distinct metric names and a float stored under
    every needed label of the results mapping, the report is the table
    with the three metadata columns followed by one metric column per
    score entry, in the order of the score nodes; it has one row for the
    baseline and one per cleaning, in request order, and one cell per row
    in every column; a metric column holds the stored floats. *)
Theorem report_closed_form self singleton extracted_plan_results e methods :
  error self = Member e →
  cleanings self = Member <$> methods →
  NoDup (metric_name <$> _score_nodes_and_linenos self) →
  float_results (labels_to_extracted_plan_results singleton)
    (required_labels (column self) methods (_score_nodes_and_linenos self)) →
  ∃ report,
    generate_final_report self singleton extracted_plan_results = Ok report
    ∧ report = expected_report (labels_to_extracted_plan_results singleton)
                 (column self) e methods (_score_nodes_and_linenos self)
    ∧ column_names report
      = ["corrupted_column"; "error"; "cleaning_method"]
        ++ (metric_name <$> _score_nodes_and_linenos self)
    ∧ length (df_index report) = S (length methods)
    ∧ well_formed report.
Proof.
  intros Herr Hcl Hnd Hall. eexists. split; [by apply report_float_results|].
  split; [done|]. unfold expected_report, column_names, well_formed, RangeIndex.
  cbn [df_columns df_index]. rewrite length_fmap, length_seq.
  split; [|split; [done|]].
  - rewrite fmap_app. f_equal. rewrite <- list_fmap_compose. by apply list_fmap_ext.
  - apply Forall_app. split.
    + unfold metadata_columns. repeat constructor; simpl; by rewrite length_fmap.
    + apply Forall_fmap, Forall_forall. intros entry _. simpl. by rewrite length_fmap.
Qed.

Lemma report_closed_form_witness :
  ∃ report,
    generate_final_report example_analysis_with_scores example_singleton ∅ = Ok report
    ∧ report = expected_report example_results "age" OUTLIER [FILTER; IMPUTE]
                 [(accuracy_node, Some 42%Z)]
    ∧ column_names report
      = ["corrupted_column"; "error"; "cleaning_method"] ++ ["accuracy_L42"]
    ∧ length (df_index report) = 3%nat
    ∧ well_formed report.
Proof.
  apply (report_closed_form example_analysis_with_scores example_singleton ∅
           OUTLIER [FILTER; IMPUTE]);
    [reflexivity | reflexivity | compute_done |].
  repeat (constructor; [by eexists|]). constructor.
Defined.

(** X19. A report asked of an object that has no score node recorded, as
    before any plan generation, looks nothing up: whatever the results
    mapping holds, it is the table of the metadata columns alone, with one
    row for the baseline and one per cleaning. *)
Theorem report_without_scores self singleton extracted_plan_results e methods :
  _score_nodes_and_linenos self = [] →
  error self = Member e →
  cleanings self = Member <$> methods →
  generate_final_report self singleton extracted_plan_results
  = Ok {| df_index := RangeIndex (S (length methods));
          df_columns := metadata_columns (column self) e methods |}.
Proof.
  intros Hscores Herr Hcl.
  rewrite (report_distinct_names self singleton extracted_plan_results e methods
             Herr Hcl); rewrite Hscores.
  - simpl. by rewrite ?app_nil_r.
  - constructor.
  - apply Forall_forall. intros label Hlabel.
    apply elem_of_required_labels in Hlabel
      as [(entry & Hentry & _)|(method & entry & _ & Hentry & _)];
      by apply elem_of_nil in Hentry.
Qed.

Lemma report_without_scores_witness :
  generate_final_report example_analysis fresh_singleton ∅
  = Ok {| df_index := RangeIndex 3;
          df_columns := metadata_columns "age" OUTLIER [FILTER; IMPUTE] |}.
Proof.
  exact (report_without_scores example_analysis fresh_singleton ∅
           OUTLIER [FILTER; IMPUTE] eq_refl eq_refl eq_refl).
Defined.

Lemma column_lookup_fmap_entry {E} (name_of : E → string) (values_of : E → list PyVal)
    (l : list E) entry :
  NoDup (name_of <$> l) → entry ∈ l →
  column_lookup (name_of entry) ((λ entry, (name_of entry, values_of entry)) <$> l)
  = Some (values_of entry).
Proof.
  induction l as [|x l IH]; [by intros _ ?%elem_of_nil|].
  rewrite !fmap_cons. intros [Hx Hnd]%NoDup_cons Hin. cbn [column_lookup].
  apply elem_of_cons in Hin as [->|Hin]; [by rewrite decide_True|].
  rewrite decide_False; [by apply IH|].
  intros Heq. apply Hx. rewrite Heq. by apply list_elem_of_fmap_2.
Qed.

(** X20. The labels carry the source line but not the score node: in a
    report, two score entries on the same line have metric columns with
    identical values, whatever their descriptions are. *)
Theorem same_line_same_values self singleton extracted_plan_results e methods
    entry1 entry2 :
  error self = Member e →
  cleanings self = Member <$> methods →
  NoDup (metric_name <$> _score_nodes_and_linenos self) →
  Forall (λ label, is_Some (labels_to_extracted_plan_results singleton !! label))
    (required_labels (column self) methods (_score_nodes_and_linenos self)) →
  entry1 ∈ _score_nodes_and_linenos self →
  entry2 ∈ _score_nodes_and_linenos self →
  entry1.2 = entry2.2 →
  ∃ report values,
    generate_final_report self singleton extracted_plan_results = Ok report
    ∧ column_lookup (metric_name entry1) (df_columns report) = Some values
    ∧ column_lookup (metric_name entry2) (df_columns report) = Some values.
Proof.
  intros Herr Hcl Hnd Hall Hin1 Hin2 Hline.
  eexists _, _. split; [by apply report_distinct_names|].
  cbn [df_columns].
  rewrite !column_lookup_app_r by apply at_line_not_metadata.
  rewrite !(column_lookup_fmap_entry metric_name
              (λ entry,
                 infer_objects
                   (metric_values (labels_to_extracted_plan_results singleton)
                      (column self) methods entry.2))) by done.
  simpl. by rewrite Hline.
Qed.

Lemma same_line_same_values_witness :
  ∃ report values,
    generate_final_report same_line_analysis example_singleton ∅ = Ok report
    ∧ column_lookup "accuracy_L42" (df_columns report) = Some values
    ∧ column_lookup "f1_L42" (df_columns report) = Some values.
Proof.
  apply (same_line_same_values same_line_analysis example_singleton ∅
           OUTLIER [FILTER; IMPUTE] (accuracy_node, Some 42%Z) (f1_node, Some 42%Z));
    [reflexivity | reflexivity | compute_done | | by left |
     by right; left | reflexivity].
  compute_done.
Defined.

(** ** Score entries that share a metric name *)

Section lengths.
Context {E : Type} (name_of : E → string).

Lemma dict_get_record key name value (d : PyDict) :
  dict_get (record_metric name value d) key []
  = if decide (key = name) then dict_get d name [] ++ [value] else dict_get d key [].
Proof.
  unfold record_metric. unfold dict_get at 1. rewrite column_lookup_dict_set.
  by case_decide.
Qed.

(** A pass adds to the column of [key] one value per entry named [key]. *)
Lemma length_get_fold key (value_of : E → PyVal) (l : list E) (d : PyDict) :
  length (dict_get
            (foldl (λ metrics entry,
                      record_metric (name_of entry) (value_of entry) metrics) d l)
            key [])
  = (length (dict_get d key [])
     + length (filter (λ entry, name_of entry = key) l))%nat.
Proof.
  revert d. induction l as [|entry l IH]; intros d; simpl; [lia|].
  rewrite IH, dict_get_record.
  destruct (decide (key = name_of entry)) as [->|Hne].
  - rewrite filter_cons_True by done. rewrite length_app. simpl. lia.
  - rewrite filter_cons_False by congruence. lia.
Qed.

Lemma length_get_rows {R} key (value_of : R → E → PyVal) (rows : list R)
    (l : list E) (d : PyDict) :
  length (dict_get
            (foldl
               (λ metrics row,
                  foldl (λ metrics entry,
                           record_metric (name_of entry) (value_of row entry) metrics)
                    metrics l)
               d rows)
            key [])
  = (length (dict_get d key [])
     + length rows * length (filter (λ entry, name_of entry = key) l))%nat.
Proof.
  revert d. induction rows as [|row rows IH]; intros d; simpl; [lia|].
  rewrite IH, length_get_fold. lia.
Qed.

(** A pass keeps the keys distinct and adds only names of its entries. *)
Lemma keys_fold (value_of : E → PyVal) (l : list E) (d : PyDict) :
  NoDup d.*1 →
  NoDup (foldl (λ metrics entry,
                  record_metric (name_of entry) (value_of entry) metrics) d l).*1
  ∧ ∀ key,
      key ∈ (foldl (λ metrics entry,
                      record_metric (name_of entry) (value_of entry) metrics) d l).*1 →
      key ∈ d.*1 ∨ key ∈ name_of <$> l.
Proof.
  revert d. induction l as [|entry l IH]; intros d Hnd; simpl.
  { split; [done|]. by left. }
  assert (Hstep : NoDup (record_metric (name_of entry) (value_of entry) d).*1
                  ∧ ∀ key, key ∈ (record_metric (name_of entry) (value_of entry) d).*1 →
                           key ∈ d.*1 ∨ key = name_of entry).
  { unfold record_metric. rewrite dict_set_keys. case_decide as Hin.
    - split; [done|]. by left.
    - split.
      + apply NoDup_app. split; [done|]. split; [|apply NoDup_singleton].
        intros key Hkey ->%list_elem_of_singleton. done.
      + intros key [?|Heq%list_elem_of_singleton]%elem_of_app; [by left|by right]. }
  destruct Hstep as [Hnd' Hkeys']. destruct (IH _ Hnd') as [Hnd'' Hkeys''].
  split; [done|]. intros key Hkey.
  destruct (Hkeys'' key Hkey) as [Hk|Hk].
  - destruct (Hkeys' key Hk) as [?|Heq]; [by left|right; rewrite Heq; left].
  - right. by right.
Qed.

Lemma keys_rows {R} (value_of : R → E → PyVal) (rows : list R) (l : list E)
    (d : PyDict) :
  NoDup d.*1 →
  NoDup (foldl
           (λ metrics row,
              foldl (λ metrics entry,
                       record_metric (name_of entry) (value_of row entry) metrics)
                metrics l)
           d rows).*1
  ∧ ∀ key,
      key ∈ (foldl
               (λ metrics row,
                  foldl (λ metrics entry,
                           record_metric (name_of entry) (value_of row entry) metrics)
                    metrics l)
               d rows).*1 →
      key ∈ d.*1 ∨ key ∈ name_of <$> l.
Proof.
  revert d. induction rows as [|row rows IH]; intros d Hnd; simpl.
  { split; [done|]. by left. }
  destruct (keys_fold (value_of row) l d Hnd) as [Hnd' Hkeys'].
  destruct (IH _ Hnd') as [Hnd'' Hkeys'']. split; [done|].
  intros key Hkey. destruct (Hkeys'' key Hkey) as [Hk|Hk]; [|by right].
  by apply Hkeys'.
Qed.

End lengths.

Lemma from_dict_ragged (data : PyDict) name values :
  (name, values) ∈ data →
  length values ≠ length (default [] (snd <$> head data)) →
  from_dict data = Raise (ValueError "All arrays must be of the same length").
Proof.
  intros Hin Hlen. unfold from_dict. destruct data as [|[first_name first] data].
  { by apply elem_of_nil in Hin. }
  simpl in Hlen.
  destruct (forallb (λ c : string * list PyVal,
                       bool_decide (length c.2 = length first))
              ((first_name, first) :: data)) eqn:Hall; [|done].
  exfalso. rewrite forallb_forall in Hall.
  specialize (Hall (name, values) (proj1 (list_elem_of_In _ _) Hin)).
  by apply bool_decide_eq_true in Hall.
Qed.

(** X21. Two score entries with the same description on the same line
    share one metric column, which then gets two values per row: with
    every label present the report is not built, pandas raises a
    [ValueError] for columns of different length. *)
Theorem shared_metric_name_fails self singleton extracted_plan_results e methods
    i j entry1 entry2 :
  error self = Member e →
  cleanings self = Member <$> methods →
  Forall (λ label, is_Some (labels_to_extracted_plan_results singleton !! label))
    (required_labels (column self) methods (_score_nodes_and_linenos self)) →
  _score_nodes_and_linenos self !! i = Some entry1 →
  _score_nodes_and_linenos self !! j = Some entry2 →
  (i < j)%nat →
  metric_name entry1 = metric_name entry2 →
  generate_final_report self singleton extracted_plan_results
  = Raise (ValueError "All arrays must be of the same length").
Proof.
  intros Herr Hcl Hall Hi Hj Hij Hname.
  rewrite (report_stored singleton self extracted_plan_results e methods) by done.
  set (results := labels_to_extracted_plan_results singleton).
  set (scores := _score_nodes_and_linenos self) in *.
  set (metrics := metrics_of results (column self) methods scores).
  assert (Hkeys : NoDup metrics.*1 ∧ ∀ key, key ∈ metrics.*1 → key ∈ metric_name <$> scores).
  { unfold metrics, metrics_of.
    destruct (keys_fold metric_name
                (λ entry, stored results (at_line "original" entry.2)) scores [])
      as [Hnd0 Hk0]; [constructor|].
    destruct (keys_rows metric_name
                (λ method entry,
                   stored results
                     (at_line (cleaning_label (column self) (Clean_value method))
                        entry.2))
                methods scores _ Hnd0) as [Hnd1 Hk1].
    split; [done|]. intros key Hkey. destruct (Hk1 key Hkey) as [Hk|Hk]; [|done].
    destruct (Hk0 key Hk) as [Hnil|?]; [|done]. by apply elem_of_nil in Hnil. }
  destruct Hkeys as [Hnd Hkeys].
  assert (Hcount : (2 ≤ length (filter (λ entry, metric_name entry = metric_name entry1)
                                  scores))%nat).
  { rewrite <- (take_drop_middle scores i entry1 Hi).
    assert (Hj' : skipn (S i) scores !! (j - S i)%nat = Some entry2)
      by (rewrite lookup_drop; rewrite <- Hj; f_equal; lia).
    rewrite <- (take_drop_middle _ _ _ Hj').
    rewrite filter_app, filter_cons_True by done.
    rewrite filter_app, filter_cons_True by done.
    rewrite !length_app. simpl. rewrite !length_app. simpl. lia. }
  assert (Hlen : length (dict_get metrics (metric_name entry1) [])
                 = (S (length methods)
                    * length (filter (λ entry, metric_name entry = metric_name entry1)
                                scores))%nat).
  { unfold metrics, metrics_of. rewrite length_get_rows, length_get_fold. simpl. lia. }
  unfold dict_get in Hlen.
  destruct (column_lookup (metric_name entry1) metrics) as [values|] eqn:Hvalues;
    [|simpl in Hlen; nia].
  rewrite dict_update_fresh; [|done|].
  - apply (from_dict_ragged _ (metric_name entry1) values).
    + apply elem_of_app. right. by apply column_lookup_Some_elem.
    + simpl. rewrite length_fmap. nia.
  - intros key (entry & -> & _)%Hkeys%list_elem_of_fmap. apply at_line_not_metadata.
Qed.

Lemma shared_metric_name_fails_witness :
  generate_final_report shared_name_analysis example_singleton ∅
  = Raise (ValueError "All arrays must be of the same length").
Proof.
  apply (shared_metric_name_fails shared_name_analysis example_singleton ∅
           OUTLIER [FILTER; IMPUTE] 0 1
           (accuracy_node, Some 42%Z) (second_accuracy_node, Some 42%Z));
    [reflexivity | reflexivity | | reflexivity | reflexivity | lia | reflexivity].
  compute_done.
Defined.

(** ** What the report reads *)

Lemma for_each_result_ext {A B} (body1 body2 : A → B → result A) acc l :
  (∀ acc x, x ∈ l → body1 acc x = body2 acc x) →
  for_each_result body1 acc l = for_each_result body2 acc l.
Proof.
  revert acc. induction l as [|x l IH]; intros acc Hext; [done|].
  rewrite !for_each_result_cons, Hext by left.
  destruct (body2 acc x); [|done]. simpl. apply IH. intros acc' y Hy.
  apply Hext. by right.
Qed.

Lemma append_metric_agree singleton1 singleton2 label name metrics :
  labels_to_extracted_plan_results singleton1 !! label
  = labels_to_extracted_plan_results singleton2 !! label →
  append_metric singleton1 label name metrics
  = append_metric singleton2 label name metrics.
Proof. intros H. unfold append_metric, results_getitem. by rewrite H. Qed.

(** X22. The report reads the results mapping at the needed labels only:
    two singletons whose mappings agree on them give the same result, be
    it a table or an exception, whatever else the mappings hold and
    whatever argument is passed. *)
Theorem report_reads_only_needed_labels self singleton1 singleton2
    extracted_plan_results1 extracted_plan_results2 e methods :
  error self = Member e →
  cleanings self = Member <$> methods →
  (∀ label,
     label ∈ required_labels (column self) methods (_score_nodes_and_linenos self) →
     labels_to_extracted_plan_results singleton1 !! label
     = labels_to_extracted_plan_results singleton2 !! label) →
  generate_final_report self singleton1 extracted_plan_results1
  = generate_final_report self singleton2 extracted_plan_results2.
Proof.
  intros Herr Hcl Hagree. unfold generate_final_report. rewrite Herr, Hcl. cbn zeta.
  set (entries := (λ entry : DagNode * option Z,
                     (description (details entry.1), entry.2))
                  <$> _score_nodes_and_linenos self).
  assert (Hentries : ∀ entry, entry ∈ entries →
            ∃ score, score ∈ _score_nodes_and_linenos self ∧ score.2 = entry.2).
  { intros entry (score & -> & Hs)%list_elem_of_fmap. eauto. }
  rewrite (for_each_result_ext
             (λ metrics entry, append_metric singleton1 _ _ metrics)
             (λ metrics (entry : option string * option Z),
                append_metric singleton2 (at_line "original" entry.2)
                  (at_line (format_description entry.1) entry.2) metrics)).
  2:{ intros acc entry (score & Hs & Heq)%Hentries. apply append_metric_agree.
      apply Hagree, elem_of_required_labels. left. exists score. by rewrite Heq. }
  match goal with |- ?m ≫= _ = _ => destruct m as [metrics|]; [|done] end.
  rewrite !bind_Ok, !for_each_result_cons. cbn [fst snd].
  rewrite (for_each_result_ext
             (report_row singleton1 entries (column self) (Member e))
             (report_row singleton2 entries (column self) (Member e))); [done|].
  intros acc cleaning (method & -> & Hmethod)%list_elem_of_fmap.
  rewrite !report_row_member. f_equal. apply for_each_result_ext.
  intros metrics' entry (score & Hs & Heq)%Hentries. apply append_metric_agree.
  apply Hagree, elem_of_required_labels. right. exists method, score.
  by rewrite Heq.
Qed.

Lemma report_reads_only_needed_labels_witness :
  generate_final_report example_analysis_with_scores example_singleton ∅
  = generate_final_report example_analysis_with_scores
      (mkSingleton 0 0 (<["unrelated" := PyInt 1]> example_results)) example_results.
Proof.
  apply (report_reads_only_needed_labels example_analysis_with_scores _ _ _ _
           OUTLIER [FILTER; IMPUTE]); [reflexivity | reflexivity |].
  intros label Hlabel. simpl. rewrite lookup_insert_ne; [done|].
  intros <-. revert Hlabel. compute_done.
Defined.

(** ** Labels *)

Lemma string_app_assoc (s1 s2 s3 : string) :
  (s1 +:+ s2) +:+ s3 = s1 +:+ (s2 +:+ s3).
Proof.
  induction s1 as [|a s1 IH]; [done|].
  change (String a ((s1 +:+ s2) +:+ s3) = String a (s1 +:+ (s2 +:+ s3))).
  by rewrite IH.
Qed.

Lemma pretty_N_go_not_None x s : s ≠ "None" → pretty_N_go x s ≠ "None".
Proof.
  revert s. induction (N.lt_wf_0 x) as [x _ IH]; intros s Hs.
  destruct (decide (x = 0%N)) as [->|Hx]; [by rewrite pretty_N_go_0|].
  rewrite pretty_N_go_step by lia. apply IH; [apply N.div_lt; lia|].
  unfold pretty_N_char. by repeat case_match.
Qed.

Lemma pretty_Z_not_None (z : Z) : pretty z ≠ "None".
Proof.
  destruct z as [|p|p]; unfold pretty, pretty_Z; [done| |done].
  unfold pretty, pretty_positive, pretty, pretty_N. simpl.
  by apply pretty_N_go_not_None.
Qed.

Lemma format_lineno_inj l1 l2 : format_lineno l1 = format_lineno l2 → l1 = l2.
Proof.
  destruct l1 as [z1|], l2 as [z2|]; simpl; intros Heq.
  - f_equal. by apply (inj pretty).
  - by apply pretty_Z_not_None in Heq.
  - symmetry in Heq. by apply pretty_Z_not_None in Heq.
  - done.
Qed.

(** X23. Within one analysis the labels are unique: two labels of cleaning
    methods coincide only for the same method and the same line, two
    baseline labels only for the same line, and a baseline label is never
    the label of a cleaning method. *)
Theorem labels_are_unique column method1 method2 lineno1 lineno2 :
  (at_line (cleaning_label column (Clean_value method1)) lineno1
   = at_line (cleaning_label column (Clean_value method2)) lineno2
   → method1 = method2 ∧ lineno1 = lineno2)
  ∧ (at_line "original" lineno1 = at_line "original" lineno2 → lineno1 = lineno2)
  ∧ at_line "original" lineno1
    ≠ at_line (cleaning_label column (Clean_value method1)) lineno2.
Proof.
  unfold at_line, cleaning_label. split; [|split].
  - rewrite !string_app_assoc. intros Heq.
    apply (inj (String.app "data-cleaning-")), (inj (String.app column)) in Heq.
    apply (inj (String.app "-")) in Heq.
    destruct method1, method2; simpl in Heq; try discriminate Heq;
      (split; [done|]); apply format_lineno_inj;
      by repeat (injection Heq as Heq).
  - intros Heq. apply (inj (String.app "original")), (inj (String.app "_L")) in Heq.
    by apply format_lineno_inj.
  - rewrite !string_app_assoc. simpl. discriminate.
Qed.

(** ** Plan generation followed by the report *)

(** X24. Plan generation and report fit together: after a run that
    returns variants for score nodes with pairwise distinct metric names,
    a results mapping that holds a float under the baseline labels and
    under the labels of the extraction patches of those variants is all
    the report needs; it is then the table in closed form over the score
    nodes of the graph. *)
Theorem plans_then_report_closed_form features dag st methods singleton'
    extracted_plan_results :
  length (find_nodes_by_type dag PREDICT) = 1%nat →
  NoDup (score_key <$> recorded_scores dag) →
  error (self st) = Member OUTLIER →
  cleanings (self st) = Member <$> methods →
  NoDup (metric_name <$> recorded_scores dag) →
  ∃ variants st',
    generate_plans_to_try features dag st = (Ok variants, st')
    ∧ (float_results (labels_to_extracted_plan_results singleton')
         ((at_line "original" <$> (snd <$> recorded_scores dag))
          ++ omap patch_label (concat variants)) →
       generate_final_report (self st') singleton' extracted_plan_results
       = Ok (expected_report (labels_to_extracted_plan_results singleton')
               (column (self st)) OUTLIER methods (recorded_scores dag))).
Proof.
  intros Hpredict Hscores Herror Hcl Hnames.
  eexists _, _. split; [by apply plans_closed_form|].
  rewrite built_variants_labels. intros Hall.
  exact (report_float_results
           (self (issued (Z.of_nat (length methods))
                    (Z.of_nat (length methods)
                     * (Z.of_nat (length (recorded_scores dag)) + 1))
                    (recorded (recorded_scores dag) st)))
           singleton' extracted_plan_results OUTLIER methods Herror Hcl Hnames Hall).
Qed.

Lemma plans_then_report_closed_form_witness :
  ∃ variants st',
    generate_plans_to_try example_features example_dag
      (mkState example_analysis fresh_singleton) = (Ok variants, st')
    ∧ generate_final_report (self st') example_singleton ∅
      = Ok (expected_report example_results "age" OUTLIER [FILTER; IMPUTE]
              (recorded_scores example_dag)).
Proof.
  destruct (plans_then_report_closed_form example_features example_dag
              (mkState example_analysis fresh_singleton) [FILTER; IMPUTE]
              example_singleton ∅)
    as (variants & st' & Hrun & Hreport);
    [reflexivity | compute_done | reflexivity | reflexivity | compute_done |].
  exists variants, st'. split; [exact Hrun|]. apply Hreport.
  rewrite (plans_closed_form example_features example_dag _ [FILTER; IMPUTE]) in Hrun
    by (reflexivity || compute_done).
  injection Hrun as <- _. repeat (constructor; [by eexists|]). constructor.
Defined.

